(** * Shortcut-Composer: mouse tracking and pie-menu layout

    A shallow embedding of [mouse_interpreter.py], [slider_values.py],
    [slider_handler.py] and [angle_iterator.py], with the properties their
    specification states.

    Python [float] is IEEE-754 binary64.  The embedding is written once
    over an interface [PyFloat] of the float operations the sources use,
    and is instantiated twice: at the kernel's primitive binary64 floats
    (bit-exact with CPython, used to run the code) and at the exact
    rationals [Q] (the arithmetic the specification reasons in). *)

From Stdlib Require Import ZArith QArith Qround Qabs Lqa Bool List Lia.
From Stdlib Require Import Ascii String Sorted.
From Stdlib Require Import Floats.
Import ListNotations.

Local Open Scope Z_scope.

(** ** Exceptions *)

Inductive pyerr : Type :=
| ZeroDivisionError
| OverflowError
| ValueError
| IndexError.

Inductive result (A : Type) : Type :=
| Ok (a : A)
| Raise (e : pyerr).

Arguments Ok {A} a.
Arguments Raise {A} e.

Definition bind {A B : Type} (r : result A) (k : A -> result B) : result B :=
  match r with
  | Ok a => k a
  | Raise e => Raise e
  end.

Notation "x <- r ;; k" := (bind r (fun x => k))
  (at level 61, r at next level, right associativity).

Definition raises {A : Type} (r : result A) : Prop :=
  exists e, r = Raise e.

(** ** The float operations used by the sources *)

Class PyFloat (F : Type) : Type := {
  (** [x + y], [x - y], [x * y]: never raise *)
  fadd : F -> F -> F;
  fsub : F -> F -> F;
  fmul : F -> F -> F;
  (** [x / y]: raises [ZeroDivisionError] when [y == 0] *)
  fdiv : F -> F -> result F;
  (** [x < y], [x <= y], [x == y] *)
  fltb : F -> F -> bool;
  fleb : F -> F -> bool;
  feqb : F -> F -> bool;
  (** [float(n)] for an [int] operand of a mixed operation *)
  of_int : Z -> result F;
  (** [round(x)]: the nearest [int], ties to even *)
  pyround : F -> result Z;
  (** the literal [n/d] written in decimal, e.g. [0.49] is [flit 49 100] *)
  flit : Z -> positive -> F
}.

(** ** Instance: binary64 *)

Module Binary64.

Definition spec_of_Z (z : Z) : spec_float :=
  binary_normalize prec emax z 0 false.

(** [PyLong_AsDouble]: correctly rounded, [OverflowError] beyond the
    largest finite double. *)
Definition of_Z (z : Z) : result float :=
  match spec_of_Z z with
  | S754_infinity _ => Raise OverflowError
  | s => Ok (SF2Prim s)
  end.

(** [float.__round__] without [ndigits]: round half to even, on the
    exact value [m * 2^e] of the double. *)
Definition round_half_even (m : positive) (e : Z) : Z :=
  match e with
  | Zneg k =>
      let d := Z.pow_pos 2 k in
      let q := Z.pos m / d in
      let r := Z.pos m mod d in
      match (2 * r ?= d) with
      | Lt => q
      | Gt => q + 1
      | Eq => if Z.even q then q else q + 1
      end
  | _ => Z.pos m * 2 ^ e
  end.

Definition round (x : float) : result Z :=
  match Prim2SF x with
  | S754_nan => Raise ValueError
  | S754_infinity _ => Raise OverflowError
  | S754_zero _ => Ok 0
  | S754_finite s m e =>
      let n := round_half_even m e in
      Ok (if s then - n else n)
  end.

Definition div (x y : float) : result float :=
  if PrimFloat.eqb y 0%float then Raise ZeroDivisionError
  else Ok (PrimFloat.div x y).

Definition lit (n : Z) (d : positive) : float :=
  PrimFloat.div (SF2Prim (spec_of_Z n)) (SF2Prim (spec_of_Z (Z.pos d))).

#[global] Instance float_PyFloat : PyFloat float := {
  fadd := PrimFloat.add;
  fsub := PrimFloat.sub;
  fmul := PrimFloat.mul;
  fdiv := div;
  fltb := PrimFloat.ltb;
  fleb := PrimFloat.leb;
  feqb := PrimFloat.eqb;
  of_int := of_Z;
  pyround := round;
  flit := lit
}.

End Binary64.

(** ** Instance: exact rationals *)

Module Exact.

Definition round (x : Q) : Z :=
  let n := Qfloor x in
  match Qcompare (x - inject_Z n) (1 # 2) with
  | Lt => n
  | Gt => n + 1
  | Eq => if Z.even n then n else n + 1
  end.

Definition div (x y : Q) : result Q :=
  if Qeq_bool y 0 then Raise ZeroDivisionError else Ok (x / y)%Q.

#[global] Instance Q_PyFloat : PyFloat Q := {
  fadd := Qplus;
  fsub := Qminus;
  fmul := Qmult;
  fdiv := div;
  fltb := fun x y => negb (Qle_bool y x);
  fleb := Qle_bool;
  feqb := Qeq_bool;
  of_int := fun z => Ok (inject_Z z);
  pyround := fun x => Ok (round x);
  flit := fun n d => Qmake n d
}.

End Exact.

(** ** [angle_iterator.py] *)

Section AngleIterator.

Context {F : Type} `{PyFloat F}.

(** [QPoint] and the result of [_center_from_angle], which goes through
    [math.sin] and [math.cos]: kept abstract. *)
Variable QPoint : Type.
Variable _center_from_angle : F -> QPoint.

(** [_float_range(start, end, step)]: the values the generator yields.
    The [while] loop is unrolled [fuel] times; [None] when the loop has
    not left by then. *)
Fixpoint _float_range (fuel : nat) (start end_ step : F) : option (list F) :=
  if fltb start end_ then
    match fuel with
    | O => None
    | S fuel' =>
        match _float_range fuel' (fadd start step) end_ step with
        | Some l => Some (start :: l)
        | None => None
        end
    end
  else Some [].

(** [AngleIterator(center_distance, radius, amount).__iter__()]:
    [for angle in self._float_range(0, 360, 360/self._amount):
         yield round(angle), self._center_from_angle(angle)]
    The division of the two [int]s is correctly rounded, as the division
    of their conversions to float is. *)
Definition AngleIterator_iter (fuel : nat) (amount : Z)
  : result (option (list (result Z * QPoint))) :=
  c0 <- of_int 0 ;;
  c360 <- of_int 360 ;;
  a <- of_int amount ;;
  step <- fdiv c360 a ;;
  Ok (option_map
        (map (fun angle => (pyround angle, _center_from_angle angle)))
        (_float_range fuel c0 c360 step)).

(** The angles alone, in the order they are yielded. *)
Definition yielded_angles (fuel : nat) (amount : Z)
  : result (option (list (result Z))) :=
  r <- AngleIterator_iter fuel amount ;;
  Ok (option_map (map fst) r).

End AngleIterator.

(** ** [mouse_interpreter.py] *)

Module MouseInterpreter.

Section Def.

Context {F : Type} `{PyFloat F}.

(** The dataclass.  [MouseInput] is [int] and [Interpreted] is [float];
    an [int] met where a float is expected (a bound of a [Range] given as
    [0], an index out of [list.index]) behaves in every operation below as
    its conversion to float does. *)
Record t : Type := Build {
  min : F;
  max : F;
  mouse_origin : Z;
  start_value : F;
  pixels_in_unit : F
}.

Definition set_mouse_origin (self : t) (o : Z) : t :=
  Build (min self) (max self) o (start_value self) (pixels_in_unit self).

(** Methods mutate [self] and may raise: a computation takes the object
    and gives back the object as the call left it, with the outcome. *)
Definition M (A : Type) : Type := t -> t * result A.

Definition ret {A : Type} (a : A) : M A := fun self => (self, Ok a).

Definition mbind {A B : Type} (m : M A) (k : A -> M B) : M B :=
  fun self =>
    match m self with
    | (self', Ok a) => k a self'
    | (self', Raise e) => (self', Raise e)
    end.

Definition lift {A : Type} (r : result A) : M A := fun self => (self, r).

Definition get {A : Type} (field : t -> A) : M A :=
  fun self => (self, Ok (field self)).

Definition assign_mouse_origin (o : Z) : M unit :=
  fun self => (set_mouse_origin self o, Ok tt).

Notation "x <~ m ;; k" := (mbind m (fun x => k))
  (at level 61, m at next level, right associativity).
Notation "m ;;; k" := (mbind m (fun _ => k))
  (at level 61, right associativity).

(** The [int] literal [0] in a comparison with a float. *)
Definition fzero : F := flit 0 1.

(** The builtins [max(a, b)] and [min(a, b)]: the first argument is
    kept unless the second compares strictly beyond it. *)
Definition py_max (a b : F) : F := if fltb a b then b else a.
Definition py_min (a b : F) : F := if fltb b a then b else a.

(** [return (mouse - self.mouse_origin)/self.pixels_in_unit] *)
Definition _delta (mouse : Z) : M F :=
  origin <~ get mouse_origin ;;
  p <~ get pixels_in_unit ;;
  d <~ lift (of_int (mouse - origin)) ;;
  lift (fdiv d p).

(** [self.mouse_origin = MouseInput(round(self.mouse_origin - delta))] *)
Definition shift_origin (delta : F) : M unit :=
  origin <~ get mouse_origin ;;
  o <~ lift (of_int origin) ;;
  n <~ lift (pyround (fsub o delta)) ;;
  assign_mouse_origin n.

(** [delta = (self.min - value)*self.pixels_in_unit
     if delta > 0: self.mouse_origin = MouseInput(round(...))
     delta = (self.max - value)*self.pixels_in_unit
     if delta < 0: self.mouse_origin = MouseInput(round(...))] *)
Definition _recalibrate (value : F) : M unit :=
  lo <~ get min ;;
  p <~ get pixels_in_unit ;;
  let delta := fmul (fsub lo value) p in
  (if fltb fzero delta then shift_origin delta else ret tt) ;;;
  hi <~ get max ;;
  p <~ get pixels_in_unit ;;
  let delta := fmul (fsub hi value) p in
  if fltb delta fzero then shift_origin delta else ret tt.

(** [return Interpreted(min(max(self.min, value), self.max))] *)
Definition _clip (value : F) : M F :=
  lo <~ get min ;;
  hi <~ get max ;;
  ret (py_min (py_max lo value) hi).

(** [value = self.start_value + self._delta(mouse)
     self._recalibrate(value)
     return self._clip(value)] *)
Definition interpret (mouse : Z) : M F :=
  s <~ get start_value ;;
  d <~ _delta mouse ;;
  let value := fadd s d in
  _recalibrate value ;;;
  _clip value.

(** The raw value [interpret] computes before recalibrating and
    clipping: [self.start_value + self._delta(mouse)]. *)
Definition raw_value (mouse : Z) : M F :=
  s <~ get start_value ;;
  d <~ _delta mouse ;;
  ret (fadd s d).

(** Two states of one interpreter object that differ at most in
    [mouse_origin]. *)
Definition same_config (self self' : t) : Prop :=
  min self' = min self /\
  max self' = max self /\
  start_value self' = start_value self /\
  pixels_in_unit self' = pixels_in_unit self.

End Def.

Arguments t F : clear implicits.

(** The scenario of the specification: [Range(min=0, max=100)],
    [pixels_in_unit=1], start at value 50, mouse origin 0. *)
Definition scenario {F : Type} `{PyFloat F} : t F :=
  Build (flit 0 1) (flit 100 1) 0 (flit 50 1) (flit 1 1).

(** The same interpreter with the scale negated. *)
Definition negative_scale {F : Type} `{PyFloat F} : t F :=
  Build (flit 0 1) (flit 100 1) 0 (flit 50 1) (flit (-1) 1).

(** Two calls in a row on one object: the two outcomes and the object
    as the second call leaves it. *)
Definition interpret_twice {F : Type} `{PyFloat F} (m1 m2 : Z) (self : t F)
  : result F * result F * t F :=
  let (self1, r1) := interpret m1 self in
  let (self2, r2) := interpret m2 self1 in
  (r1, r2, self2).

(** The raw value in exact arithmetic, as the specification writes it:
    [start_value + (mouse - mouse_origin) / pixels_in_unit]. *)
Definition exact_raw (self : t Q) (m : Z) : Q :=
  (start_value self + inject_Z (m - mouse_origin self) / pixels_in_unit self)%Q.

End MouseInterpreter.

(** ** [slider_values.py] *)

(** Modelled from the spec: [data_components.Range], the dataclass
    [Range{min, max}] a slider is configured with. *)
Record Range (F : Type) : Type := MkRange {
  range_min : F;
  range_max : F
}.

Arguments MkRange {F} _ _.
Arguments range_min {F} _.
Arguments range_max {F} _.

Module RangeSliderValues.

Section Def.

Context {F : Type} `{PyFloat F}.

Record t : Type := Build {
  min : F;
  max : F;
  __default : F
}.

(** [self.min = Interpreted(values.min)
     self.max = Interpreted(values.max)
     self.__default = Interpreted((self.min + self.max)*0.5)] *)
Definition __init__ (values : Range F) : t :=
  let lo := range_min values in
  let hi := range_max values in
  Build lo hi (fmul (fadd lo hi) (flit 5 10)).

(** [self.min <= value <= self.max] *)
Definition in_range (self : t) (value : F) : bool :=
  fleb (min self) value && fleb value (max self).

(** [if not self.min <= value <= self.max:
         return Controlled(self.__default)
     return Controlled(value)] *)
Definition at_ (self : t) (value : F) : F :=
  if negb (in_range self value) then __default self else value.

(** [if not self.min <= value <= self.max:
         return Controlled(self.__default)
     return Interpreted(value)] *)
Definition index (self : t) (value : F) : F :=
  if negb (in_range self value) then __default self else value.

End Def.

Arguments t F : clear implicits.

End RangeSliderValues.

(** List subscription [values[i]], negative indices counting from the end. *)
Definition list_getitem {A : Type} (values : list A) (i : Z) : result A :=
  let n := Z.of_nat (List.length values) in
  let j := if i <? 0 then i + n else i in
  if (0 <=? j) && (j <? n) then
    match nth_error values (Z.to_nat j) with
    | Some a => Ok a
    | None => Raise IndexError
    end
  else Raise IndexError.

Module ListSliderValues.

Section Def.

Context {F : Type} `{PyFloat F}.

(** The elements are arbitrary Python objects: [py_eq item value] is
    the test [item is value or item == value] that [in] and
    [list.index] apply, and [int0] is the object [0]. *)
Variable A : Type.
Variable py_eq : A -> A -> bool.
Variable int0 : A.

(** [value in values] *)
Definition list_contains (values : list A) (value : A) : bool :=
  existsb (fun item => py_eq item value) values.

(** [values.index(value)]: position of the first match, [ValueError]
    when there is none. *)
Fixpoint list_index (values : list A) (value : A) : result Z :=
  match values with
  | [] => Raise ValueError
  | item :: rest =>
      if py_eq item value then Ok 0
      else i <- list_index rest value ;; Ok (i + 1)
  end.

(** [k] is the first position of [values] holding an element equal to
    [e], and [item] is that element. *)
Definition first_occurrence (values : list A) (e : A) (k : Z) (item : A)
  : Prop :=
  0 <= k /\
  nth_error values (Z.to_nat k) = Some item /\
  py_eq item e = true /\
  forall j other,
    (j < Z.to_nat k)%nat -> nth_error values j = Some other ->
    py_eq other e = false.

(** The object holds a reference to the caller's list, which may
    change between calls: the list is an argument of every method. *)
Definition min : F := flit (-49) 100.

(** [Interpreted(0)]: the [int] 0, an index in [at] and, as [int0], an
    element looked up in [index]. *)
Definition __default : Z := 0.

(** [len(self.__values) - 0.51] *)
Definition max (values : list A) : result F :=
  n <- of_int (Z.of_nat (List.length values)) ;;
  Ok (fsub n (flit 51 100)).

(** [self.min <= value <= self.max] *)
Definition in_range (values : list A) (value : F) : result bool :=
  if fleb min value then
    hi <- max values ;; Ok (fleb value hi)
  else Ok false.

(** [if not self.min <= value <= self.max:
         value = self.__default
     return Controlled(self.__values[round(value)])] *)
Definition at_ (values : list A) (value : F) : result A :=
  ok <- in_range values value ;;
  i <- (if negb ok then Ok __default else pyround value) ;;
  list_getitem values i.

(** [if value not in self.__values:
         value = self.__default
     return Interpreted(self.__values.index(value))] *)
Definition index (values : list A) (value : A) : result F :=
  let value := if negb (list_contains values value) then int0 else value in
  i <- list_index values value ;;
  of_int i.

End Def.

(** Whether lists of [n] elements are indexed faithfully by the floats:
    every position [k] converts to a float that lies in [[min, max]] and
    rounds back to [k]. *)
Definition index_faithful (F : Type) `{PyFloat F} (n : Z) : Prop :=
  forall k, 0 <= k < n ->
    exists x hi,
      of_int k = Ok x /\ fleb min x = true /\
      of_int n = Ok hi /\ fleb x (fsub hi (flit 51 100)) = true /\
      pyround x = Ok k.

(** The same, checked from one position to the next. *)
Definition step_ok {F : Type} `{PyFloat F} (k : Z) : bool :=
  match of_int k, of_int (k + 1) with
  | Ok x, Ok y =>
      fleb min x && fleb x y && fleb x (fsub y (flit 51 100))
      && match pyround x with Ok r => r =? k | Raise _ => false end
  | _, _ => false
  end.

Definition all_steps_ok {F : Type} `{PyFloat F} (n : nat) : bool :=
  forallb (fun k => step_ok (Z.of_nat k)) (seq 0 n).

End ListSliderValues.

(** A small universe of controlled values, to run the list adapter on. *)
Inductive pyobj : Type :=
| PyInt (z : Z)
| PyStr (s : string).

Definition pyobj_eq (a b : pyobj) : bool :=
  match a, b with
  | PyInt x, PyInt y => x =? y
  | PyStr s, PyStr u => String.eqb s u
  | _, _ => false
  end.

(** The list adapter over such values; [0] is [PyInt 0]. *)
Definition list_at {F : Type} `{PyFloat F} (values : list pyobj) (value : F)
  : result pyobj :=
  ListSliderValues.at_ pyobj values value.

Definition list_index {F : Type} `{PyFloat F} (values : list pyobj)
    (value : pyobj) : result F :=
  ListSliderValues.index pyobj pyobj_eq (PyInt 0) values value.

(** ** [slider_handler.py]: the deadzone phase *)

Module SliderHandler.

(** What the tracking thread observes in one pass of its loop: the
    pointer position [read_mouse()] returns, and the value of the
    [__working] flag, which [stop()] clears from the UI thread. *)
Record tick : Type := Tick {
  mouse : Z;
  working : bool
}.

(** How [_start_after_deadzone] ends on a finite run of observations. *)
Inductive outcome : Type :=
| Stopped                                (* [return]: never tracked *)
| ValueSettingLoop (rest : list tick)    (* [self._value_setting_loop()] *)
| Waiting.                               (* still sampling in the deadzone *)

(** Modelled from the spec: [Slider.deadzone], the deadzone pixel
    threshold of the slider configuration, an integer number of pixels.

    [while abs(start_point - self.read_mouse()) <= deadzone:
         if not self.__working: return
         sleep(sleep_time)
     self._value_setting_loop()] *)
Fixpoint deadzone_loop (deadzone start_point : Z) (ticks : list tick)
  : outcome :=
  match ticks with
  | [] => Waiting
  | Tick m w :: rest =>
      if Z.abs (start_point - m) <=? deadzone then
        if negb w then Stopped
        else deadzone_loop deadzone start_point rest
      else ValueSettingLoop rest
  end.

(** [reads] is what [read_mouse()] and [__working] give, in order; the
    first position read is [start_point]. *)
Definition _start_after_deadzone (deadzone : Z) (start_point : Z)
    (ticks : list tick) : outcome :=
  deadzone_loop deadzone start_point ticks.

Definition within_deadzone (deadzone start_point : Z) (tk : tick) : bool :=
  Z.abs (start_point - mouse tk) <=? deadzone.

End SliderHandler.

(** ** Order laws of the comparisons

    What [<], [<=] and [==] satisfy on floats: a total preorder on the
    values that compare with themselves (everything except NaN). *)

Class PyFloatOrder (F : Type) `{PyFloat F} : Prop := {
  fleb_trans : forall a b c : F,
    fleb a b = true -> fleb b c = true -> fleb a c = true;
  fleb_total : forall a b : F,
    fleb a a = true -> fleb b b = true -> fleb a b = true \/ fleb b a = true;
  fleb_refl : forall a b : F,
    fleb a b = true -> fleb a a = true /\ fleb b b = true;
  fltb_spec : forall a b : F,
    fltb a b = true <-> fleb a b = true /\ fleb b a = false;
  feqb_spec : forall a b : F,
    feqb a b = true <-> fleb a b = true /\ fleb b a = true
}.

(** The position of a binary64 value in the order: sign class, then
    exponent, then mantissa; [None] for NaN. *)
Definition lex3 : Type := (Z * Z * Z)%type.

Definition lex_lt (a b : lex3) : Prop :=
  let '(a1, a2, a3) := a in
  let '(b1, b2, b3) := b in
  a1 < b1 \/ (a1 = b1 /\ (a2 < b2 \/ (a2 = b2 /\ a3 < b3))).

Definition sf_key (x : spec_float) : option lex3 :=
  match x with
  | S754_nan => None
  | S754_infinity s => Some (if s then -2 else 2, 0, 0)
  | S754_zero _ => Some (0, 0, 0)
  | S754_finite s m e =>
      Some (if s then (-1, - e, - Z.pos m) else (1, e, Z.pos m))
  end.

Definition lex_le (a b : lex3) : Prop := lex_lt a b \/ a = b.

(** ** [settings_dialog.py]: the stored pie values *)

(** [sep.join(texts)] *)
Fixpoint join (sep : string) (texts : list string) : string :=
  match texts with
  | [] => EmptyString
  | text :: rest =>
      match rest with
      | [] => text
      | _ :: _ => (text ++ sep ++ join sep rest)%string
      end
  end.

(** [s.split(sep)] for a separator of one character: the pieces between
    the occurrences of [sep]; one piece, [s] itself, when there is none. *)
Fixpoint split (sep : ascii) (s : string) : list string :=
  match s with
  | EmptyString => [EmptyString]
  | String c rest =>
      if Ascii.eqb c sep then EmptyString :: split sep rest
      else
        match split sep rest with
        | piece :: pieces => String c piece :: pieces
        | [] => [String c EmptyString]
        end
  end.

(** [sep in s] *)
Fixpoint has_char (sep : ascii) (s : string) : bool :=
  match s with
  | EmptyString => false
  | String c rest => Ascii.eqb c sep || has_char sep rest
  end.

Module PieValues.

(** The part of the widget the two methods work on: the texts of the
    rows of [list_widget], top to bottom, and the string the [config]
    field holds ([write] replaces it, [read] returns it). *)
Record t : Type := Build {
  rows : list string;
  stored : string
}.

(** [texts = []
     for row in range(self.list_widget.count()):
         texts.append(self.list_widget.item(row).text())
     self.config.write(";".join(texts))] *)
Definition apply (self : t) : t :=
  Build (rows self) (join ";" (rows self)).

(** [self.list_widget.clear()
     currently_set: str = self.config.read()
     self.list_widget.addItems(currently_set.split(";"))] *)
Definition refresh (self : t) : t :=
  Build (split ";" (stored self)) (stored self).

End PieValues.

(** ** [actions.py]: cycling through tools *)

(** [itertools.zip_longest(l1, l2, fillvalue=fillvalue)] *)
Fixpoint zip_longest {A : Type} (l1 l2 : list A) (fillvalue : A)
  : list (A * A) :=
  match l1 with
  | [] => map (fun y => (fillvalue, y)) l2
  | x :: rest1 =>
      match l2 with
      | [] => (x, fillvalue) :: zip_longest rest1 [] fillvalue
      | y :: rest2 => (x, y) :: zip_longest rest1 rest2 fillvalue
      end
  end.

Module CyclicTool.

Record t : Type := Build {
  action_name : string;
  tools : list string;
  default_tool : string
}.

(** [for tool, next_tool in pairs:
         if tool == current_tool:
             self._set_tool(next_tool)
             return]
    The result is the tool handed to [_set_tool], if any. *)
Fixpoint first_next (current_tool : string) (pairs : list (string * string))
  : option string :=
  match pairs with
  | [] => None
  | (tool, next_tool) :: rest =>
      if String.eqb tool current_tool then Some next_tool
      else first_next current_tool rest
  end.

(** [set_high], given what [get_current_tool_name()] returns:
    [zip_longest(self.tools, self.tools[1:], fillvalue=self.tools[0])],
    whose arguments are evaluated before the loop starts. *)
Definition set_high (self : t) (current_tool : string)
  : result (option string) :=
  fillvalue <- list_getitem (tools self) 0 ;;
  Ok (first_next current_tool
        (zip_longest (tools self) (tl (tools self)) fillvalue)).

(** [self._set_tool(self.default_tool)] *)
Definition set_low (self : t) : string := default_tool self.

(** [return get_current_tool_name() not in self.tools] *)
Definition is_high_state (self : t) (current_tool : string) : bool :=
  negb (existsb (fun tool => String.eqb tool current_tool) (tools self)).

(** The current tool after a press of the key, the tool handed to
    [_set_tool] becoming the current one; unchanged when none is, or when
    the call raises. *)
Definition press (self : t) (current_tool : string) : string :=
  match set_high self current_tool with
  | Ok (Some next_tool) => next_tool
  | _ => current_tool
  end.

End CyclicTool.

(** ** [slider_handler.py]: the value-setting loop *)

Module ValueSetting.

Section Def.

Context {F : Type} `{PyFloat F}.

(** The abstract class [SliderValues], with controlled values in [C]:
    the attributes [min] and [max] ([max] is a property of the list-backed
    adapter and is computed at every access) and the two methods. *)
Record SliderValues (C : Type) : Type := MkValues {
  sv_min : F;
  sv_max : result F;
  sv_at : F -> result C;
  sv_index : C -> result F
}.

Arguments sv_min {C} _.
Arguments sv_max {C} _.
Arguments sv_at {C} _ _.
Arguments sv_index {C} _ _.

(** [RangeSliderValues(slider.values)] *)
Definition range_values (values : Range F) : SliderValues F :=
  let self := RangeSliderValues.__init__ values in
  MkValues F
    (RangeSliderValues.min self)
    (Ok (RangeSliderValues.max self))
    (fun value => Ok (RangeSliderValues.at_ self value))
    (fun value => Ok (RangeSliderValues.index self value)).

(** [ListSliderValues(slider.values)], over a list that stays as it is
    while the loop runs. *)
Definition list_values (A : Type) (py_eq : A -> A -> bool) (int0 : A)
    (values : list A) : SliderValues A :=
  MkValues A
    ListSliderValues.min
    (ListSliderValues.max A values)
    (ListSliderValues.at_ A values)
    (ListSliderValues.index A py_eq int0 values).

(** [__update_interpreter]:
    [MouseInterpreter(min=self.__to_cycle.min, max=self.__to_cycle.max,
       mouse_origin=self.read_mouse(),
       start_value=self.__get_current_interpreted_value(),
       pixels_in_unit=self.__slider.pixels_in_unit)]
    where [mouse] is what [read_mouse()] returns and [controller_value]
    what [controller.get_value()] returns. *)
Definition __update_interpreter {C : Type} (to_cycle : SliderValues C)
    (pixels_in_unit : F) (mouse : Z) (controller_value : C)
  : result (MouseInterpreter.t F) :=
  hi <- sv_max to_cycle ;;
  start_value <- sv_index to_cycle controller_value ;;
  Ok (MouseInterpreter.Build (sv_min to_cycle) hi mouse start_value
        pixels_in_unit).

(** How the loop ends on a finite run of observations. *)
Inductive ending : Type :=
| LoopLeft                    (* [self.__working] was found cleared *)
| LoopRaised (e : pyerr)      (* an exception ended the thread *)
| LoopRunning.                (* still looping *)

(** [while self.__working:
         clipped_value = self.__interpreter.interpret(self.read_mouse())
         to_set = self.__to_cycle.at(clipped_value)
         self.__slider.controller.set_value(to_set)
         sleep(self.__slider.sleep_time)]
    One observation per pass: the flag, then the pointer position.  The
    result lists the values handed to [set_value], in order. *)
Fixpoint loop {C : Type} (to_cycle : SliderValues C)
    (interpreter : MouseInterpreter.t F) (ticks : list SliderHandler.tick)
  : list C * ending :=
  match ticks with
  | [] => ([], LoopRunning)
  | SliderHandler.Tick mouse working :: rest =>
      if negb working then ([], LoopLeft)
      else
        match MouseInterpreter.interpret mouse interpreter with
        | (_, Raise e) => ([], LoopRaised e)
        | (interpreter', Ok clipped_value) =>
            match sv_at to_cycle clipped_value with
            | Raise e => ([], LoopRaised e)
            | Ok to_set =>
                let (written, how) := loop to_cycle interpreter' rest in
                (to_set :: written, how)
            end
        end
  end.

(** [_value_setting_loop]: [self.__update_interpreter()], then the loop. *)
Definition _value_setting_loop {C : Type} (to_cycle : SliderValues C)
    (pixels_in_unit : F) (mouse : Z) (controller_value : C)
    (ticks : list SliderHandler.tick) : list C * ending :=
  match __update_interpreter to_cycle pixels_in_unit mouse controller_value with
  | Raise e => ([], LoopRaised e)
  | Ok interpreter => loop to_cycle interpreter ticks
  end.

End Def.

Arguments sv_min {F C} _.
Arguments sv_max {F C} _.
Arguments sv_at {F C} _ _.
Arguments sv_index {F C} _ _.

End ValueSetting.

(** Whether [max], over a list of [n] elements, rounds to the last
    index. *)
Definition bounds_ok {F : Type} `{PyFloat F} (n : Z) : bool :=
  match of_int n with
  | Ok x =>
      match pyround (fsub x (flit 51 100)) with
      | Ok r => r =? n - 1
      | Raise _ => false
      end
  | Raise _ => false
  end.

Definition all_bounds_ok {F : Type} `{PyFloat F} (n : nat) : bool :=
  forallb (fun k => bounds_ok (Z.of_nat (S k))) (seq 0 n).

(** ** Checks on the yielded angles *)

(** The angles of a run that raised nowhere. *)
Fixpoint all_ok {A : Type} (l : list (result A)) : option (list A) :=
  match l with
  | [] => Some []
  | Ok a :: rest => option_map (cons a) (all_ok rest)
  | Raise _ :: _ => None
  end.

Fixpoint strictly_increasing (l : list Z) : bool :=
  match l with
  | [] => true
  | a :: rest =>
      match rest with
      | [] => true
      | b :: _ => (a <? b) && strictly_increasing rest
      end
  end.

(** What the angles yielded for [amount] are checked against: [amount]
    angles, increasing, from 0 and below 360, and then nothing more or
    the one angle 360. *)
Definition angles_checked (amount : nat) (angles : list Z) : bool :=
  let labels := firstn amount angles in
  (List.length labels =? amount)%nat
  && strictly_increasing labels
  && forallb (fun a => (0 <=? a) && (a <? 360)) labels
  && match labels with a :: _ => a =? 0 | [] => true end
  && match skipn amount angles with
     | [] => true
     | [a] => a =? 360
     | _ => false
     end.

Definition binary64_angles_ok (amount : nat) : bool :=
  match @yielded_angles float _ unit (fun _ => tt) 400 (Z.of_nat amount) with
  | Ok (Some l) =>
      match all_ok l with
      | Some angles => angles_checked amount angles
      | None => false
      end
  | _ => false
  end.

(** ** [settings_dialog.py]: the list of values *)

Module ValueList.

(** The state of the [QListWidget] the methods read: the texts of its
    rows, the rows of [selectedIndexes()] and [currentRow()]. *)
Record t : Type := Build {
  texts : list string;
  selected : list Z;
  current : Z
}.

(** [self.count()] *)
Definition count (self : t) : Z := Z.of_nat (List.length (texts self)).

(** [if not self.selectedIndexes():
         return self.count()
     return self.currentRow()] *)
Definition current_row (self : t) : Z :=
  match selected self with
  | [] => count self
  | _ :: _ => current self
  end.

(** [QListWidget.insertItem(row, text)]: a row below 0 inserts at the
    top, a row past the end inserts at the end. *)
Definition insertItem (rows : list string) (row : Z) (text : string)
  : list string :=
  let r := Z.to_nat (Z.max 0 (Z.min row (Z.of_nat (List.length rows)))) in
  firstn r rows ++ text :: skipn r rows.

(** [QListWidget.takeItem(row)]: removes the row, when there is one. *)
Definition takeItem (rows : list string) (row : Z) : list string :=
  if (0 <=? row) && (row <? Z.of_nat (List.length rows)) then
    firstn (Z.to_nat row) rows ++ skipn (S (Z.to_nat row)) rows
  else rows.

(** [insert(position, value)]: the rows after
    [self.insertItem(position+1, value)], and the row handed to
    [setCurrentRow]. *)
Definition insert (self : t) (position : Z) (value : string)
  : list string * Z :=
  (insertItem (texts self) (position + 1) value, position + 1).

(** [PieValues.add]:
    [self.list_widget.insert(position=self.list_widget.current_row,
                             value=self.combo_box.currentText())] *)
Definition add (self : t) (value : string) : list string * Z :=
  insert self (current_row self) value.

(** [sorted(indices, reverse=True)] *)
Fixpoint insert_desc (x : Z) (l : list Z) : list Z :=
  match l with
  | [] => [x]
  | y :: rest => if y <? x then x :: l else y :: insert_desc x rest
  end.

Definition sorted_reverse (indices : list Z) : list Z :=
  fold_right insert_desc [] indices.

(** [remove_selected]:
    [selected = self.selectedIndexes()
     indices = [item.row() for item in selected]
     for index in sorted(indices, reverse=True):
         self.takeItem(index)
     if selected:
         first_deleted_row = min([item.row() for item in selected])
         self.clearSelection()
         self.setCurrentRow(first_deleted_row-1)]
    The rows left, and the row handed to [setCurrentRow], if any. *)
Definition remove_selected (self : t) : list string * option Z :=
  let indices := selected self in
  (fold_left takeItem (sorted_reverse indices) (texts self),
   match indices with
   | [] => None
   | index :: rest => Some (fold_left Z.min rest index - 1)
   end).

(** The rows of [rows], numbered from [k], whose number is not in
    [indices]. *)
Fixpoint keep_rows (indices : list Z) (k : Z) (rows : list string)
  : list string :=
  match rows with
  | [] => []
  | text :: rest =>
      if existsb (Z.eqb k) indices then keep_rows indices (k + 1) rest
      else text :: keep_rows indices (k + 1) rest
  end.

End ValueList.

(** Orders on rows: strictly above, and not below. *)
Definition above (a b : Z) : Prop := b < a.
Definition not_below (a b : Z) : Prop := b <= a.

(** * Properties *)

(** ** The binary64 comparisons form a total preorder off NaN *)

Lemma SFcompare_key (x y : spec_float) :
  match SFcompare x y with
  | None => sf_key x = None \/ sf_key y = None
  | Some c =>
      exists a b, sf_key x = Some a /\ sf_key y = Some b /\
        match c with
        | Lt => lex_lt a b
        | Eq => a = b
        | Gt => lex_lt b a
        end
  end.
Proof.
  destruct x as [sx|sx| |sx mx ex], y as [sy|sy| |sy my ey];
    cbn [SFcompare sf_key];
    try (left; reflexivity); try (right; reflexivity);
    try (destruct sx); try (destruct sy);
    try (do 2 eexists; split; [reflexivity|split; [reflexivity|]];
         cbn; try reflexivity; try lia).
  all: change (PosDef.Pos.compare_cont Eq mx my) with (Pos.compare mx my).
  all: destruct (Z.compare_spec ex ey); try lia;
    destruct (Pos.compare_spec mx my); cbn; subst; try reflexivity; lia.
Qed.

Lemma SFleb_key (x y : spec_float) :
  SFleb x y = true <->
  exists a b, sf_key x = Some a /\ sf_key y = Some b /\ lex_le a b.
Proof.
  unfold SFleb, lex_le. pose proof (SFcompare_key x y) as K.
  destruct (SFcompare x y) as [[ | | ]|].
  - destruct K as (a & b & Ha & Hb & E). split; [intros _|reflexivity].
    exists a, b. auto.
  - destruct K as (a & b & Ha & Hb & E). split; [intros _|reflexivity].
    exists a, b. auto.
  - destruct K as (a & b & Ha & Hb & E). split; [discriminate|].
    intros (a' & b' & Ha' & Hb' & L). exfalso.
    rewrite Ha in Ha'. rewrite Hb in Hb'.
    injection Ha' as <-. injection Hb' as <-.
    destruct a as [[a1 a2] a3], b as [[b1 b2] b3]. unfold lex_lt in *.
    destruct L as [L|L]; [lia|]. injection L as -> -> ->. lia.
  - split; [discriminate|].
    intros (a & b & Ha & Hb & _). destruct K; congruence.
Qed.

Lemma SFltb_key (x y : spec_float) :
  SFltb x y = true <->
  exists a b, sf_key x = Some a /\ sf_key y = Some b /\ lex_lt a b.
Proof.
  unfold SFltb. pose proof (SFcompare_key x y) as K.
  destruct (SFcompare x y) as [[ | | ]|].
  - destruct K as (a & b & Ha & Hb & E). split; [discriminate|].
    intros (a' & b' & Ha' & Hb' & L). exfalso.
    rewrite Ha in Ha'. rewrite Hb in Hb'.
    injection Ha' as <-. injection Hb' as <-. subst b.
    destruct a as [[a1 a2] a3]. unfold lex_lt in L. lia.
  - destruct K as (a & b & Ha & Hb & E). split; [intros _|reflexivity].
    exists a, b. auto.
  - destruct K as (a & b & Ha & Hb & E). split; [discriminate|].
    intros (a' & b' & Ha' & Hb' & L). exfalso.
    rewrite Ha in Ha'. rewrite Hb in Hb'.
    injection Ha' as <-. injection Hb' as <-.
    destruct a as [[a1 a2] a3], b as [[b1 b2] b3]. unfold lex_lt in *. lia.
  - split; [discriminate|].
    intros (a & b & Ha & Hb & _). destruct K; congruence.
Qed.

Lemma SFeqb_key (x y : spec_float) :
  SFeqb x y = true <->
  exists a, sf_key x = Some a /\ sf_key y = Some a.
Proof.
  unfold SFeqb. pose proof (SFcompare_key x y) as K.
  destruct (SFcompare x y) as [[ | | ]|].
  - destruct K as (a & b & Ha & Hb & E). split; [intros _|reflexivity].
    exists a. subst b. auto.
  - destruct K as (a & b & Ha & Hb & E). split; [discriminate|].
    intros (a' & Ha' & Hb'). exfalso.
    assert (a = b) by congruence. subst b.
    destruct a as [[a1 a2] a3]. unfold lex_lt in E. lia.
  - destruct K as (a & b & Ha & Hb & E). split; [discriminate|].
    intros (a' & Ha' & Hb'). exfalso.
    assert (a = b) by congruence. subst b.
    destruct a as [[a1 a2] a3]. unfold lex_lt in E. lia.
  - split; [discriminate|].
    intros (a & Ha & Hb). destruct K; congruence.
Qed.

Lemma lex_le_trans (a b c : lex3) : lex_le a b -> lex_le b c -> lex_le a c.
Proof.
  destruct a as [[a1 a2] a3], b as [[b1 b2] b3], c as [[c1 c2] c3].
  unfold lex_le, lex_lt.
  intros [L1|E1] [L2|E2];
    try (injection E1 as -> -> ->); try (injection E2 as -> -> ->);
    auto; left; lia.
Qed.

Lemma lex_le_total (a b : lex3) : lex_le a b \/ lex_le b a.
Proof.
  destruct a as [[a1 a2] a3], b as [[b1 b2] b3]. unfold lex_le, lex_lt.
  destruct (Z.lt_trichotomy a1 b1) as [?|[->|?]]; [left; left; lia| |right; left; lia].
  destruct (Z.lt_trichotomy a2 b2) as [?|[->|?]]; [left; left; lia| |right; left; lia].
  destruct (Z.lt_trichotomy a3 b3) as [?|[->|?]]; [left; left; lia| |right; left; lia].
  left; right; reflexivity.
Qed.

Lemma lex_lt_iff (a b : lex3) : lex_lt a b <-> lex_le a b /\ ~ lex_le b a.
Proof.
  destruct a as [[a1 a2] a3], b as [[b1 b2] b3]. unfold lex_le, lex_lt.
  split.
  - intros L. split; [left; exact L|]. intros [L'|E]; [lia|].
    injection E as -> -> ->. lia.
  - intros [[L|E] N]; [exact L|]. exfalso. apply N. right. now symmetry.
Qed.

Lemma lex_le_antisym (a b : lex3) : lex_le a b -> lex_le b a -> a = b.
Proof.
  destruct a as [[a1 a2] a3], b as [[b1 b2] b3]. unfold lex_le, lex_lt.
  intros [L1|E1] [L2|E2]; auto; lia.
Qed.

#[global] Instance float_PyFloatOrder : PyFloatOrder float.
Proof.
  split; cbn [fleb fltb feqb Binary64.float_PyFloat].
  - intros a b c. rewrite !leb_spec, !SFleb_key.
    intros (x & y & Hx & Hy & L1) (y' & z & Hy' & Hz & L2).
    assert (y' = y) by congruence. subst y'.
    exists x, z. eauto using lex_le_trans.
  - intros a b. rewrite !leb_spec, !SFleb_key.
    intros (x & _ & Hx & _ & _) (y & _ & Hy & _ & _).
    destruct (lex_le_total x y); [left; exists x, y|right; exists y, x]; auto.
  - intros a b. rewrite !leb_spec, !SFleb_key.
    intros (x & y & Hx & Hy & _).
    split; [exists x, x|exists y, y]; unfold lex_le; auto.
  - intros a b. rewrite ltb_spec, !leb_spec, SFltb_key.
    rewrite <- not_true_iff_false, !SFleb_key. split.
    + intros (x & y & Hx & Hy & L). apply lex_lt_iff in L as [L N]. split.
      * exists x, y. auto.
      * intros (y' & x' & Hy' & Hx' & L').
        assert (x' = x) by congruence. assert (y' = y) by congruence.
        subst. auto.
    + intros [(x & y & Hx & Hy & L) N]. exists x, y.
      split; [exact Hx|split; [exact Hy|]]. apply lex_lt_iff. split; [exact L|].
      intros L'. apply N. exists y, x. auto.
  - intros a b. rewrite FloatAxioms.eqb_spec, !leb_spec, SFeqb_key, !SFleb_key.
    split.
    + intros (x & Hx & Hy). split; exists x, x; unfold lex_le; auto.
    + intros [(x & y & Hx & Hy & L) (y' & x' & Hy' & Hx' & L')].
      assert (x' = x) by congruence. assert (y' = y) by congruence. subst.
      assert (x = y) by eauto using lex_le_antisym. subst. exists y. auto.
Qed.

#[global] Instance Q_PyFloatOrder : PyFloatOrder Q.
Proof.
  split; cbn [fleb fltb feqb Exact.Q_PyFloat].
  - intros a b c. rewrite !Qle_bool_iff. apply Qle_trans.
  - intros a b _ _. rewrite !Qle_bool_iff.
    destruct (Qlt_le_dec a b) as [L|L]; [left; now apply Qlt_le_weak|now right].
  - intros a b _. rewrite !Qle_bool_iff. split; apply Qle_refl.
  - intros a b. rewrite negb_true_iff, <- !not_true_iff_false, !Qle_bool_iff.
    split.
    + intros N. split; [|exact N]. apply Qlt_le_weak. now apply Qnot_le_lt.
    + intros [_ N]. exact N.
  - intros a b. rewrite Qeq_bool_iff, !Qle_bool_iff. split.
    + intros E. split; rewrite E; apply Qle_refl.
    + intros [L1 L2]. now apply Qle_antisym.
Qed.

(** ** [MouseInterpreter]: what a call leaves untouched *)

Section InterpreterFrame.

Context {F : Type} `{PyFloat F}.

Import MouseInterpreter.

Lemma same_config_refl (self : t F) : same_config self self.
Proof. repeat split. Qed.

Lemma same_config_trans (a b c : t F) :
  same_config a b -> same_config b c -> same_config a c.
Proof.
  unfold same_config. intros (?&?&?&?) (?&?&?&?).
  repeat split; congruence.
Qed.

Lemma shift_origin_frame (delta : F) (self : t F) :
  same_config self (fst (shift_origin delta self)).
Proof.
  unfold shift_origin, mbind, get, lift, assign_mouse_origin.
  destruct (of_int (mouse_origin self)); cbn; [|apply same_config_refl].
  destruct (pyround _); cbn; repeat split.
Qed.

Lemma _recalibrate_frame (value : F) (self : t F) :
  same_config self (fst (_recalibrate value self)).
Proof.
  unfold _recalibrate, mbind, get, ret. cbn.
  set (d1 := fmul (fsub (min self) value) (pixels_in_unit self)).
  pose proof (shift_origin_frame d1 self) as S1.
  destruct (fltb fzero d1).
  - destruct (shift_origin d1 self) as [self1 [[]|e]]; cbn in *; [|exact S1].
    set (d2 := fmul (fsub (max self1) value) (pixels_in_unit self1)).
    pose proof (shift_origin_frame d2 self1) as S2.
    destruct (fltb d2 fzero); cbn; eauto using same_config_trans.
  - set (d2 := fmul (fsub (max self) value) (pixels_in_unit self)).
    pose proof (shift_origin_frame d2 self) as S2.
    destruct (fltb d2 fzero); cbn; auto using same_config_refl.
Qed.

Lemma _delta_frame (mouse : Z) (self : t F) :
  fst (_delta mouse self) = self.
Proof.
  unfold _delta, mbind, get, lift. cbn.
  destruct (of_int _); cbn; reflexivity.
Qed.

(** [interpret] as one equation: the raw value, the recalibrated
    object, the clipped result. *)
Lemma interpret_unfold (mouse : Z) (self : t F) :
  interpret mouse self =
  match _delta mouse self with
  | (_, Ok d) =>
      let value := fadd (start_value self) d in
      match _recalibrate value self with
      | (self', Ok _) =>
          (self', Ok (py_min (py_max (min self') value) (max self')))
      | (self', Raise e) => (self', Raise e)
      end
  | (_, Raise e) => (self, Raise e)
  end.
Proof.
  unfold interpret. unfold mbind at 1. unfold get at 1. cbv beta iota.
  unfold mbind at 1.
  pose proof (_delta_frame mouse self) as D.
  destruct (_delta mouse self) as [s [d|e]]; cbn in D; subst s; [|reflexivity].
  unfold mbind at 1. cbv zeta.
  destruct (_recalibrate _ self) as [self' [[]|e]]; reflexivity.
Qed.

Lemma interpret_frame (mouse : Z) (self : t F) :
  same_config self (fst (interpret mouse self)).
Proof.
  rewrite interpret_unfold.
  destruct (_delta mouse self) as [s [d|e]]; [|apply same_config_refl].
  cbn zeta.
  pose proof (_recalibrate_frame (fadd (start_value self) d) self) as R.
  destruct (_recalibrate _ self) as [self' [[]|e]]; exact R.
Qed.

End InterpreterFrame.

(** ** Properties of the specification *)

(** C9 (frame).  A call of [interpret], whether it returns or raises,
    leaves [min], [max], [start_value] and [pixels_in_unit] of the
    interpreter exactly as they were; only [mouse_origin] may differ.  The
    same holds of [_recalibrate] alone, which therefore never alters
    [start_value]. *)
Theorem interpret_changes_only_mouse_origin :
  forall (F : Type) (ops : PyFloat F)
         (self : MouseInterpreter.t F) (mouse : Z) (value : F),
    let after := fst (MouseInterpreter.interpret mouse self) in
    let recal := fst (MouseInterpreter._recalibrate value self) in
    (MouseInterpreter.min after = MouseInterpreter.min self /\
     MouseInterpreter.max after = MouseInterpreter.max self /\
     MouseInterpreter.start_value after = MouseInterpreter.start_value self /\
     MouseInterpreter.pixels_in_unit after
       = MouseInterpreter.pixels_in_unit self) /\
    (MouseInterpreter.min recal = MouseInterpreter.min self /\
     MouseInterpreter.max recal = MouseInterpreter.max self /\
     MouseInterpreter.start_value recal = MouseInterpreter.start_value self /\
     MouseInterpreter.pixels_in_unit recal
       = MouseInterpreter.pixels_in_unit self).
Proof.
  intros F ops self mouse value after recal. split.
  - exact (interpret_frame mouse self).
  - exact (_recalibrate_frame value self).
Qed.

(** ** Consequences of the order laws *)

Section OrderFacts.

Context {F : Type} `{PyFloatOrder F}.

Lemma fltb_fleb (a b : F) : fltb a b = true -> fleb a b = true.
Proof. intros L. now apply fltb_spec in L. Qed.

Lemma fleb_not_fltb (a b : F) : fleb a b = true -> fltb b a = false.
Proof.
  intros L. apply not_true_iff_false. intros G.
  apply fltb_spec in G as [_ G]. congruence.
Qed.

Lemma fltb_asym (a b : F) : fltb a b = true -> fltb b a = false.
Proof. intros L. apply fleb_not_fltb. now apply fltb_fleb. Qed.

Lemma not_fltb_fleb (a b : F) :
  fleb a a = true -> fleb b b = true -> fltb a b = false -> fleb b a = true.
Proof.
  intros Ra Rb N. destruct (fleb b a) eqn:E; [reflexivity|].
  destruct (fleb_total a b Ra Rb) as [L|L]; [|congruence].
  assert (fltb a b = true) by (apply fltb_spec; auto). congruence.
Qed.

Lemma fleb_fltb_trans (a b c : F) :
  fleb a b = true -> fltb b c = true -> fltb a c = true.
Proof.
  intros L1 L2. apply fltb_spec in L2 as [L2 N]. apply fltb_spec. split.
  - eapply fleb_trans; eassumption.
  - apply not_true_iff_false. intros G.
    assert (fleb c b = true) by (eapply fleb_trans; eassumption). congruence.
Qed.

Lemma fltb_fleb_trans (a b c : F) :
  fltb a b = true -> fleb b c = true -> fltb a c = true.
Proof.
  intros L1 L2. apply fltb_spec in L1 as [L1 N]. apply fltb_spec. split.
  - eapply fleb_trans; eassumption.
  - apply not_true_iff_false. intros G.
    assert (fleb b a = true) by (eapply fleb_trans; eassumption). congruence.
Qed.

Import MouseInterpreter.

(** The clipped value, case by case. *)
Lemma clip_inside (lo hi v : F) :
  fleb lo v = true -> fleb v hi = true ->
  feqb (py_min (py_max lo v) hi) v = true.
Proof.
  intros L1 L2. unfold py_min, py_max.
  destruct (fleb_refl _ _ L1) as [Rlo Rv].
  destruct (fltb lo v) eqn:E.
  - rewrite (fleb_not_fltb _ _ L2). apply feqb_spec. auto.
  - assert (fleb lo hi = true) as L3 by exact (fleb_trans lo v hi L1 L2).
    rewrite (fleb_not_fltb _ _ L3). apply feqb_spec.
    split; [exact L1|]. now apply not_fltb_fleb.
Qed.

Lemma clip_below (lo hi v : F) :
  fleb lo hi = true -> fltb v lo = true ->
  py_min (py_max lo v) hi = lo.
Proof.
  intros L G. unfold py_min, py_max.
  rewrite (fltb_asym _ _ G), (fleb_not_fltb _ _ L). reflexivity.
Qed.

Lemma clip_above (lo hi v : F) :
  fleb lo hi = true -> fltb hi v = true ->
  py_min (py_max lo v) hi = hi.
Proof.
  intros L G. unfold py_min, py_max.
  rewrite (fleb_fltb_trans _ _ _ L G), G. reflexivity.
Qed.

Lemma clip_bounds (lo hi v : F) :
  fleb lo hi = true ->
  fleb lo (py_min (py_max lo v) hi) = true /\
  fleb (py_min (py_max lo v) hi) hi = true.
Proof.
  intros L. unfold py_min, py_max.
  destruct (fleb_refl _ _ L) as [Rlo Rhi].
  destruct (fltb lo v) eqn:E.
  - destruct (fltb hi v) eqn:E2; [auto|].
    pose proof (fltb_fleb _ _ E) as L1.
    destruct (fleb_refl _ _ L1) as [_ Rv].
    split; [exact L1|]. now apply not_fltb_fleb.
  - rewrite (fleb_not_fltb _ _ L). auto.
Qed.

End OrderFacts.

(** C7 (clipping).  For an interpreter with [min <= max], [_clip(value)]
    returns a value equal ([==]) to [value] when [min <= value <= max],
    returns [min] when [value < min] and [max] when [value > max], and
    leaves the object as it was; consequently every value [interpret]
    returns lies in [[min, max]].  This holds for binary64 floats (NaN
    included, which compares with nothing) and for exact rationals. *)
Theorem clip_postcondition :
  forall (F : Type) (ops : PyFloat F) (laws : PyFloatOrder F)
         (self : MouseInterpreter.t F),
    fleb (MouseInterpreter.min self) (MouseInterpreter.max self) = true ->
    (forall value,
        fleb (MouseInterpreter.min self) value = true ->
        fleb value (MouseInterpreter.max self) = true ->
        exists r, MouseInterpreter._clip value self = (self, Ok r) /\
                  feqb r value = true) /\
    (forall value,
        fltb value (MouseInterpreter.min self) = true ->
        MouseInterpreter._clip value self
          = (self, Ok (MouseInterpreter.min self))) /\
    (forall value,
        fltb (MouseInterpreter.max self) value = true ->
        MouseInterpreter._clip value self
          = (self, Ok (MouseInterpreter.max self))) /\
    (forall mouse self' r,
        MouseInterpreter.interpret mouse self = (self', Ok r) ->
        fleb (MouseInterpreter.min self) r = true /\
        fleb r (MouseInterpreter.max self) = true).
Proof.
  intros F ops laws self L. split; [|split; [|split]].
  - intros value L1 L2. eexists. split; [reflexivity|].
    now apply clip_inside.
  - intros value G. unfold MouseInterpreter._clip, MouseInterpreter.mbind,
      MouseInterpreter.get, MouseInterpreter.ret. cbn.
    now rewrite clip_below.
  - intros value G. unfold MouseInterpreter._clip, MouseInterpreter.mbind,
      MouseInterpreter.get, MouseInterpreter.ret. cbn.
    now rewrite clip_above.
  - intros mouse self' r. rewrite interpret_unfold.
    destruct (MouseInterpreter._delta mouse self) as [s [d|e]]; [|discriminate].
    cbn zeta.
    pose proof (_recalibrate_frame
                  (fadd (MouseInterpreter.start_value self) d) self) as R.
    destruct (MouseInterpreter._recalibrate _ self) as [s1 [[]|e]];
      [|discriminate].
    destruct R as (E1 & E2 & _). cbn in E1, E2.
    intros E. injection E as _ <-. rewrite E1, E2. now apply clip_bounds.
Qed.

Lemma clip_postcondition_witness :
  fleb (MouseInterpreter.min (@MouseInterpreter.scenario float _))
       (MouseInterpreter.max (@MouseInterpreter.scenario float _)) = true /\
  forall mouse self' r,
    MouseInterpreter.interpret mouse (@MouseInterpreter.scenario float _)
      = (self', Ok r) ->
    fleb (MouseInterpreter.min (@MouseInterpreter.scenario float _)) r = true /\
    fleb r (MouseInterpreter.max (@MouseInterpreter.scenario float _)) = true.
Proof.
  split; [reflexivity|].
  apply (clip_postcondition float _ _ MouseInterpreter.scenario).
  reflexivity.
Defined.

(** ** The reversal scenario *)

(** C1, as the code behaves.  On the scenario interpreter ([min=0],
    [max=100], [pixels_in_unit=1], [start_value=50], [mouse_origin=0]),
    [interpret(200)] returns 100 and recalibrates the origin to 150;
    [interpret(0)] then returns 0, the minimum, and leaves the origin at
    50.  The same in binary64 and in exact arithmetic. *)
Theorem reversal_returns_minimum :
  @MouseInterpreter.interpret_twice float _ 200 0 MouseInterpreter.scenario
    = (Ok (flit 100 1), Ok (flit 0 1),
       MouseInterpreter.set_mouse_origin MouseInterpreter.scenario 50) /\
  fst (@MouseInterpreter.interpret float _ 200 MouseInterpreter.scenario)
    = MouseInterpreter.set_mouse_origin MouseInterpreter.scenario 150 /\
  @MouseInterpreter.interpret_twice Q _ 200 0 MouseInterpreter.scenario
    = (Ok (flit 100 1), Ok (flit 0 1),
       MouseInterpreter.set_mouse_origin MouseInterpreter.scenario 50).
Proof.
  split; [|split]; vm_compute; reflexivity.
Qed.

(** C1, as stated, fails: the second call returns a value that is not 50. *)
Lemma reversal_does_not_return_start :
  exists r : float,
    snd (fst (@MouseInterpreter.interpret_twice float _ 200 0
                MouseInterpreter.scenario)) = Ok r /\
    feqb r (flit 50 1) = false.
Proof.
  exists (flit 0 1). split; vm_compute; reflexivity.
Qed.

(** Coming back by the 50 pixels that separate the bound from the start
    value is what restores 50. *)
Lemma partial_reversal_returns_start :
  @MouseInterpreter.interpret_twice float _ 200 150 MouseInterpreter.scenario
    = (Ok (flit 100 1), Ok (flit 50 1),
       MouseInterpreter.set_mouse_origin MouseInterpreter.scenario 150).
Proof. vm_compute. reflexivity. Qed.

(** ** [AngleIterator] on binary64 *)

(** C3 at concrete amounts.  For [amount = 4] the iterator yields the four
    angles 0, 90, 180, 270.  For [amount = 13] it yields fourteen items:
    the thirteen additions of [360/13] stay below 360 in binary64, so the
    loop runs once more and yields the angle 360. *)
Theorem angle_iterator_thirteen_yields_fourteen :
  forall (QPoint : Type) (center : float -> QPoint),
    yielded_angles QPoint center 20 4
      = Ok (Some [Ok 0; Ok 90; Ok 180; Ok 270]) /\
    yielded_angles QPoint center 20 13
      = Ok (Some [Ok 0; Ok 28; Ok 55; Ok 83; Ok 111; Ok 138; Ok 166;
                  Ok 194; Ok 222; Ok 249; Ok 277; Ok 305; Ok 332; Ok 360]) /\
    (items <- AngleIterator_iter QPoint center 20 13 ;;
     Ok (option_map (@List.length _) items)) = Ok (Some 14%nat).
Proof.
  intros QPoint center. split; [|split]; vm_compute; reflexivity.
Qed.

(** ** [SliderHandler]: the deadzone *)

Section Deadzone.

Import SliderHandler.

Variables deadzone start_point : Z.

Lemma deadzone_loop_within (ticks : list tick) :
  forallb (within_deadzone deadzone start_point) ticks = true ->
  deadzone_loop deadzone start_point ticks = Waiting \/
  deadzone_loop deadzone start_point ticks = Stopped.
Proof.
  induction ticks as [|[m w] rest IH]; cbn [forallb deadzone_loop].
  - intros _. now left.
  - unfold within_deadzone at 1. cbn [mouse].
    intros [In Rest]%andb_prop. rewrite In.
    destruct w; cbn [negb]; [now apply IH|now right].
Qed.

Lemma deadzone_loop_leaves (pre : list tick) (tk : tick) (rest : list tick) :
  forallb (fun t => within_deadzone deadzone start_point t && working t) pre
    = true ->
  within_deadzone deadzone start_point tk = false ->
  deadzone_loop deadzone start_point (pre ++ tk :: rest)
    = ValueSettingLoop rest.
Proof.
  intros Pre Out. induction pre as [|[m w] pre IH]; cbn [app deadzone_loop].
  - destruct tk as [m w]. unfold within_deadzone in Out. cbn [mouse] in Out.
    now rewrite Out.
  - cbn [forallb] in Pre. apply andb_prop in Pre as [Here Pre].
    apply andb_prop in Here as [In W]. unfold within_deadzone in In.
    cbn [mouse working] in In, W. rewrite In, W. cbn [negb]. now apply IH.
Qed.

Lemma deadzone_loop_stops (pre : list tick) (tk : tick) (rest : list tick) :
  forallb (fun t => within_deadzone deadzone start_point t && working t) pre
    = true ->
  within_deadzone deadzone start_point tk = true ->
  working tk = false ->
  deadzone_loop deadzone start_point (pre ++ tk :: rest) = Stopped.
Proof.
  intros Pre In Off. induction pre as [|[m w] pre IH]; cbn [app deadzone_loop].
  - destruct tk as [m w]. unfold within_deadzone in In. cbn [mouse working] in *.
    now rewrite In, Off.
  - cbn [forallb] in Pre. apply andb_prop in Pre as [Here Pre].
    apply andb_prop in Here as [In' W]. unfold within_deadzone in In'.
    cbn [mouse working] in In', W. rewrite In', W. cbn [negb]. now apply IH.
Qed.

End Deadzone.

(** C8 (deadzone gating).  On any run of observations whose displacements
    from the start point are all at most [deadzone], the thread does not
    enter the value-setting loop: it is still sampling, or has returned on
    a cleared flag.  The first observation whose displacement is strictly
    greater than [deadzone], the flag having been set at every observation
    before it, enters the value-setting loop.  A displacement equal to
    [deadzone] does not enter it; one pixel more does. *)
Theorem deadzone_gating :
  forall deadzone start_point : Z,
    (forall ticks rest,
        forallb (SliderHandler.within_deadzone deadzone start_point) ticks
          = true ->
        SliderHandler._start_after_deadzone deadzone start_point ticks
          <> SliderHandler.ValueSettingLoop rest) /\
    (forall pre tk rest,
        forallb (fun t => SliderHandler.within_deadzone deadzone start_point t
                          && SliderHandler.working t) pre = true ->
        deadzone < Z.abs (start_point - SliderHandler.mouse tk) ->
        SliderHandler._start_after_deadzone deadzone start_point
          (pre ++ tk :: rest) = SliderHandler.ValueSettingLoop rest) /\
    (forall m w,
        Z.abs (start_point - m) = deadzone ->
        SliderHandler._start_after_deadzone deadzone start_point
          [SliderHandler.Tick m w]
          = (if w then SliderHandler.Waiting else SliderHandler.Stopped)) /\
    (forall m w rest,
        Z.abs (start_point - m) = deadzone + 1 ->
        SliderHandler._start_after_deadzone deadzone start_point
          (SliderHandler.Tick m w :: rest) = SliderHandler.ValueSettingLoop rest).
Proof.
  intros deadzone start_point. unfold SliderHandler._start_after_deadzone.
  split; [|split; [|split]].
  - intros ticks rest In E.
    destruct (deadzone_loop_within deadzone start_point ticks In); congruence.
  - intros pre tk rest Pre Out. apply deadzone_loop_leaves; [exact Pre|].
    unfold SliderHandler.within_deadzone. apply Z.leb_gt. exact Out.
  - intros m w E. cbn [SliderHandler.deadzone_loop].
    replace (Z.abs (start_point - m) <=? deadzone) with true
      by (symmetry; apply Z.leb_le; lia).
    destruct w; reflexivity.
  - intros m w rest E. cbn [SliderHandler.deadzone_loop].
    replace (Z.abs (start_point - m) <=? deadzone) with false
      by (symmetry; apply Z.leb_gt; lia).
    reflexivity.
Qed.

Lemma deadzone_gating_witness :
  SliderHandler._start_after_deadzone 5 100
    [SliderHandler.Tick 102 true; SliderHandler.Tick 105 true]
    <> SliderHandler.ValueSettingLoop [] /\
  SliderHandler._start_after_deadzone 5 100
    ([SliderHandler.Tick 102 true; SliderHandler.Tick 105 true]
       ++ SliderHandler.Tick 106 true :: [])
    = SliderHandler.ValueSettingLoop [] /\
  SliderHandler._start_after_deadzone 5 100 [SliderHandler.Tick 95 true]
    = SliderHandler.Waiting /\
  SliderHandler._start_after_deadzone 5 100 [SliderHandler.Tick 94 true]
    = SliderHandler.ValueSettingLoop [].
Proof.
  destruct (deadzone_gating 5 100) as (Stay & Leave & Edge & Beyond).
  split; [|split; [|split]].
  - apply Stay. reflexivity.
  - apply Leave; [reflexivity|]. cbn. lia.
  - apply (Edge 95 true). reflexivity.
  - apply (Beyond 94 true []). reflexivity.
Defined.

(** ** [ListSliderValues] over the empty list *)

Lemma list_getitem_nil (A : Type) (i : Z) :
  @list_getitem A [] i = Raise IndexError.
Proof.
  unfold list_getitem. cbn [List.length Z.of_nat].
  destruct (i <? 0) eqn:Neg.
  - apply Z.ltb_lt in Neg.
    replace (0 <=? i + 0) with false by (symmetry; apply Z.leb_gt; lia).
    reflexivity.
  - destruct (0 <=? i); [|reflexivity].
    replace (i <? 0) with false. reflexivity.
Qed.

(** No binary64 value lies in [[-0.49, -0.51]]. *)
Lemma empty_list_range_is_empty (A : Type) (value : float) :
  ListSliderValues.in_range A [] value = Ok false.
Proof.
  unfold ListSliderValues.in_range.
  destruct (fleb ListSliderValues.min value) eqn:Lo; [|reflexivity].
  assert (@ListSliderValues.max float _ A []
          = Ok (PrimFloat.sub (flit 0 1) (flit 51 100))) as M
    by (vm_compute; reflexivity).
  rewrite M. cbn [bind]. f_equal. apply not_true_iff_false. intros Hi.
  pose proof (fleb_trans _ _ _ Lo Hi) as Bad.
  vm_compute in Bad. discriminate.
Qed.

(** C10.  Over the empty list every call of [at] raises and every call of
    [index] raises, whatever the float arithmetic.  On binary64:
    [max = -0.51] is below [min = -0.49], no argument is in range, [at]
    falls back to index 0 and raises [IndexError], and [index] falls back
    to looking up 0 and raises [ValueError]. *)
Theorem empty_list_always_raises :
  forall (A : Type) (py_eq : A -> A -> bool) (int0 : A),
    (forall (F : Type) (ops : PyFloat F) (value : F),
        raises (ListSliderValues.at_ A [] value)) /\
    (forall (F : Type) (ops : PyFloat F) (value : A),
        raises (@ListSliderValues.index F ops A py_eq int0 [] value)) /\
    (exists hi : float,
        ListSliderValues.max A [] = Ok hi /\
        fltb hi ListSliderValues.min = true) /\
    (forall value : float,
        ListSliderValues.in_range A [] value = Ok false /\
        ListSliderValues.at_ A [] value = Raise IndexError) /\
    (forall value : A,
        @ListSliderValues.index float _ A py_eq int0 [] value
          = Raise ValueError).
Proof.
  intros A py_eq int0. split; [|split; [|split; [|split]]].
  - intros F ops value. unfold ListSliderValues.at_.
    destruct (ListSliderValues.in_range A [] value) as [ok|e]; cbn [bind];
      [|now exists e].
    destruct (if negb ok then Ok ListSliderValues.__default else pyround value)
      as [i|e]; cbn [bind]; [|now exists e].
    exists IndexError. apply list_getitem_nil.
  - intros F ops value. exists ValueError. reflexivity.
  - eexists. split; [reflexivity|]. vm_compute. reflexivity.
  - intros value. split; [apply empty_list_range_is_empty|].
    unfold ListSliderValues.at_. rewrite empty_list_range_is_empty.
    reflexivity.
  - intros value. reflexivity.
Qed.

(** ** Out-of-range lookups *)

(** C2, as the code behaves.  [RangeSliderValues.at] and
    [RangeSliderValues.index] return the default, which [__init__] sets to
    [(min + max) * 0.5], for every argument outside [[min, max]].  Over a
    list that is not empty, [ListSliderValues.at] returns the first
    element for every argument outside [[min, max]]. *)
Theorem out_of_range_falls_back :
  forall (F : Type) (ops : PyFloat F),
    (forall (values : Range F) (value : F),
        let self := RangeSliderValues.__init__ values in
        RangeSliderValues.in_range self value = false ->
        RangeSliderValues.at_ self value
          = fmul (fadd (range_min values) (range_max values)) (flit 5 10) /\
        RangeSliderValues.index self value
          = fmul (fadd (range_min values) (range_max values)) (flit 5 10)) /\
    (forall (A : Type) (first : A) (others : list A) (value : F),
        ListSliderValues.in_range A (first :: others) value = Ok false ->
        ListSliderValues.at_ A (first :: others) value = Ok first).
Proof.
  intros F ops. split.
  - intros values value self Out.
    unfold RangeSliderValues.at_, RangeSliderValues.index.
    rewrite Out. split; reflexivity.
  - intros A first others value Out. unfold ListSliderValues.at_.
    rewrite Out. cbn [bind negb]. unfold ListSliderValues.__default.
    unfold list_getitem. cbn [Z.ltb Z.compare Z.leb andb].
    replace (0 <? Z.of_nat (List.length (first :: others))) with true.
    + reflexivity.
    + symmetry. apply Z.ltb_lt. cbn [List.length]. lia.
Qed.

Lemma out_of_range_falls_back_witness :
  @RangeSliderValues.at_ float _
    (RangeSliderValues.__init__ (MkRange (flit 0 1) (flit 100 1)))
    (flit 150 1) = flit 50 1 /\
  @list_at float _ [PyStr "a"; PyStr "b"] (flit 7 1) = Ok (PyStr "a").
Proof.
  destruct (out_of_range_falls_back float _) as [Rng Lst]. split.
  - exact (proj1 (Rng (MkRange (flit 0 1) (flit 100 1)) (flit 150 1)
                      eq_refl)).
  - apply (Lst pyobj (PyStr "a") [PyStr "b"] (flit 7 1)). reflexivity.
Defined.

(** C2, as stated, fails on the empty list: [at] raises. *)
Lemma empty_list_at_raises :
  @list_at float _ [] (flit 5 1) = Raise IndexError.
Proof. vm_compute. reflexivity. Qed.

(** [index] of a value that is absent looks up the number 0 in the list:
    it raises unless the list holds a 0. *)
Lemma absent_value_index_raises :
  @list_index float _ [PyStr "a"; PyStr "b"] (PyStr "c") = Raise ValueError /\
  @list_index float _ [PyStr "a"; PyInt 0] (PyStr "c") = Ok (flit 1 1).
Proof. split; vm_compute; reflexivity. Qed.

(** ** [MouseInterpreter] in exact arithmetic *)

Section ExactInterpreter.
Import MouseInterpreter.
Local Open Scope Q_scope.

Lemma round_near (x : Q) : Qabs (inject_Z (Exact.round x) - x) <= 1 # 2.
Proof.
  unfold Exact.round.
  pose proof (Qfloor_le x) as Lo. pose proof (Qlt_floor x) as Hi.
  set (n := Qfloor x) in *.
  rewrite inject_Z_plus in Hi. change (inject_Z 1) with 1 in Hi.
  apply Qabs_Qle_condition.
  destruct (Qcompare_spec (x - inject_Z n) (1 # 2)) as [E|L|G].
  - destruct (Z.even n); [|rewrite inject_Z_plus; change (inject_Z 1) with 1]; lra.
  - lra.
  - rewrite inject_Z_plus. change (inject_Z 1) with 1. lra.
Qed.

Lemma _recalibrate_exact (v : Q) (self : t Q) :
  _recalibrate v self =
  let d1 := (min self - v) * pixels_in_unit self in
  let self1 :=
    if negb (Qle_bool d1 0)
    then set_mouse_origin self (Exact.round (inject_Z (mouse_origin self) - d1))
    else self in
  let d2 := (max self - v) * pixels_in_unit self in
  let self2 :=
    if negb (Qle_bool 0 d2)
    then set_mouse_origin self1 (Exact.round (inject_Z (mouse_origin self1) - d2))
    else self1 in
  (self2, Ok tt).
Proof.
  unfold _recalibrate, shift_origin, mbind, get, ret, lift,
    assign_mouse_origin, fzero.
  cbn [fltb fsub fmul flit of_int pyround Exact.Q_PyFloat].
  cbv zeta.
  destruct (negb (Qle_bool ((min self - v) * pixels_in_unit self) (0 # 1)));
    cbn [max pixels_in_unit set_mouse_origin];
  destruct (negb (Qle_bool (0 # 1) ((max self - v) * pixels_in_unit self)));
    reflexivity.
Qed.

Lemma negb_Qle_bool (x y : Q) : negb (Qle_bool x y) = true <-> y < x.
Proof.
  rewrite negb_true_iff, <- not_true_iff_false, Qle_bool_iff.
  split; [apply Qnot_le_lt|apply Qlt_not_le].
Qed.

Lemma negb_Qle_bool_false (x y : Q) : negb (Qle_bool x y) = false <-> x <= y.
Proof.
  rewrite negb_false_iff, Qle_bool_iff. reflexivity.
Qed.

Lemma scaled_pos (x p : Q) : 0 < p -> (0 < x * p <-> 0 < x).
Proof.
  intros P. split; intros L.
  - destruct (Qlt_le_dec 0 x) as [?|N]; [assumption|]. exfalso.
    assert (x * p <= 0 * p) by (apply Qmult_le_compat_r; lra). lra.
  - apply Qmult_lt_0_compat; assumption.
Qed.

Lemma scaled_neg (x p : Q) : 0 < p -> (x * p < 0 <-> x < 0).
Proof.
  intros P. pose proof (scaled_pos (- x) p P) as S.
  split; intros L.
  - assert (0 < - x) by (apply S; lra). lra.
  - assert (0 < - x * p) by (apply S; lra). lra.
Qed.

Lemma _delta_exact (self : t Q) (m : Z) :
  0 < pixels_in_unit self ->
  _delta m self
  = (self, Ok (inject_Z (m - mouse_origin self) / pixels_in_unit self)).
Proof.
  intros P. unfold _delta, mbind, get, lift.
  cbn [of_int fdiv Exact.Q_PyFloat]. unfold Exact.div.
  destruct (Qeq_bool (pixels_in_unit self) 0) eqn:E; [|reflexivity].
  apply Qeq_bool_iff in E. lra.
Qed.

Lemma interpret_exact (self : t Q) (m : Z) :
  0 < pixels_in_unit self ->
  interpret m self
  = (fst (_recalibrate (exact_raw self m) self),
     Ok (py_min (py_max (min self) (exact_raw self m)) (max self))).
Proof.
  intros P. rewrite interpret_unfold, (_delta_exact self m P). cbv zeta.
  change (fadd (start_value self)
               (inject_Z (m - mouse_origin self) / pixels_in_unit self))
    with (exact_raw self m).
  pose proof (_recalibrate_frame (exact_raw self m) self) as (E1 & E2 & _).
  rewrite _recalibrate_exact in *. cbv zeta in *. cbn [fst] in *.
  rewrite E1, E2. reflexivity.
Qed.

Lemma exact_raw_scaled (self : t Q) (m : Z) (b : Q) :
  0 < pixels_in_unit self ->
  (exact_raw self m - b) * pixels_in_unit self
  == inject_Z m - inject_Z (mouse_origin self)
     + (start_value self - b) * pixels_in_unit self.
Proof.
  intros P. unfold exact_raw. unfold Z.sub. rewrite inject_Z_plus, inject_Z_opp.
  field. lra.
Qed.

Lemma raw_value_exact (self : t Q) (m : Z) :
  0 < pixels_in_unit self ->
  raw_value m self = (self, Ok (exact_raw self m)).
Proof.
  intros P. unfold raw_value. unfold mbind at 1. unfold get at 1.
  cbv beta iota. unfold mbind at 1. rewrite (_delta_exact self m P).
  reflexivity.
Qed.

Lemma recalibrate_below (self : t Q) (v : Q) :
  0 < pixels_in_unit self -> min self <= max self -> v < min self ->
  fst (_recalibrate v self)
  = set_mouse_origin self
      (Exact.round (inject_Z (mouse_origin self)
                    - (min self - v) * pixels_in_unit self)).
Proof.
  intros P B L. rewrite _recalibrate_exact. cbv zeta. cbn [fst].
  replace (negb (Qle_bool ((min self - v) * pixels_in_unit self) 0)) with true
    by (symmetry; apply negb_Qle_bool, scaled_pos; lra).
  replace (negb (Qle_bool 0 ((max self - v) * pixels_in_unit self))) with false.
  - reflexivity.
  - symmetry. apply negb_Qle_bool_false.
    assert (0 < (max self - v) * pixels_in_unit self)
      by (apply scaled_pos; lra). lra.
Qed.

Lemma recalibrate_above (self : t Q) (v : Q) :
  0 < pixels_in_unit self -> min self <= max self -> max self < v ->
  fst (_recalibrate v self)
  = set_mouse_origin self
      (Exact.round (inject_Z (mouse_origin self)
                    - (max self - v) * pixels_in_unit self)).
Proof.
  intros P B L. rewrite _recalibrate_exact. cbv zeta. cbn [fst].
  replace (negb (Qle_bool ((min self - v) * pixels_in_unit self) 0)) with false.
  - replace (negb (Qle_bool 0 ((max self - v) * pixels_in_unit self)))
      with true by (symmetry; apply negb_Qle_bool, scaled_neg; lra).
    reflexivity.
  - symmetry. apply negb_Qle_bool_false.
    assert ((min self - v) * pixels_in_unit self < 0)
      by (apply scaled_neg; lra). lra.
Qed.

Lemma le_scaled (x p : Q) : 0 < p -> x <= 0 -> x * p <= 0.
Proof.
  intros P L. assert (x * p <= 0 * p) by (apply Qmult_le_compat_r; lra). lra.
Qed.

Lemma ge_scaled (x p : Q) : 0 < p -> 0 <= x -> 0 <= x * p.
Proof. intros P L. apply Qmult_le_0_compat; lra. Qed.

Lemma recalibrate_inside (self : t Q) (v : Q) :
  0 < pixels_in_unit self -> min self <= v -> v <= max self ->
  fst (_recalibrate v self) = self.
Proof.
  intros P L1 L2. rewrite _recalibrate_exact. cbv zeta. cbn [fst].
  replace (negb (Qle_bool ((min self - v) * pixels_in_unit self) 0)) with false
    by (symmetry; apply negb_Qle_bool_false, le_scaled; lra).
  replace (negb (Qle_bool 0 ((max self - v) * pixels_in_unit self))) with false
    by (symmetry; apply negb_Qle_bool_false, ge_scaled; lra).
  reflexivity.
Qed.

(** After the origin is moved for the bound [b], the raw value at the same
    pointer position is within half a pixel of [b]. *)
Lemma anchored_at (self : t Q) (m : Z) (b : Q) :
  0 < pixels_in_unit self ->
  let o' := Exact.round (inject_Z (mouse_origin self)
                         - (b - exact_raw self m) * pixels_in_unit self) in
  Qabs ((exact_raw (set_mouse_origin self o') m - b) * pixels_in_unit self)
  <= 1 # 2.
Proof.
  intros P o'.
  pose proof (exact_raw_scaled (set_mouse_origin self o') m b P) as E'.
  cbn [mouse_origin start_value pixels_in_unit set_mouse_origin] in E'.
  rewrite E'.
  pose proof (exact_raw_scaled self m b P) as E.
  pose proof (round_near (inject_Z (mouse_origin self)
                          - (b - exact_raw self m) * pixels_in_unit self)) as R.
  fold o' in R. apply Qabs_Qle_condition in R. apply Qabs_Qle_condition.
  lra.
Qed.
Lemma clip_exact_above (lo hi v : Q) :
  lo <= hi -> hi < v -> py_min (py_max lo v) hi = hi.
Proof.
  intros B L. apply clip_above.
  - apply Qle_bool_iff. exact B.
  - apply negb_Qle_bool. exact L.
Qed.

Lemma clip_exact_below (lo hi v : Q) :
  lo <= hi -> v < lo -> py_min (py_max lo v) hi = lo.
Proof.
  intros B L. apply clip_below.
  - apply Qle_bool_iff. exact B.
  - apply negb_Qle_bool. exact L.
Qed.

Lemma clip_exact_inside (lo hi v : Q) :
  lo <= v -> v <= hi -> py_min (py_max lo v) hi == v.
Proof.
  intros L1 L2. apply Qeq_bool_iff.
  change (feqb (py_min (py_max lo v) hi) v = true).
  apply clip_inside; apply Qle_bool_iff; assumption.
Qed.

(** One pixel further out than a position whose raw value is at most half
    a pixel inside the bound: the call returns the bound. *)
Lemma step_past_max (self : t Q) (m : Z) :
  0 < pixels_in_unit self -> min self <= max self ->
  - (1 # 2) <= (exact_raw self m - max self) * pixels_in_unit self ->
  exists self', interpret (m + 1) self = (self', Ok (max self)).
Proof.
  intros P B Near. rewrite (interpret_exact self (m + 1) P).
  eexists. f_equal. f_equal. apply clip_exact_above; [exact B|].
  pose proof (exact_raw_scaled self m (max self) P) as E.
  pose proof (exact_raw_scaled self (m + 1) (max self) P) as E'.
  rewrite inject_Z_plus in E'. change (inject_Z 1) with 1 in E'.
  assert (0 < (exact_raw self (m + 1) - max self) * pixels_in_unit self)
    as S by lra.
  apply scaled_pos in S; [lra|exact P].
Qed.

Lemma step_past_min (self : t Q) (m : Z) :
  0 < pixels_in_unit self -> min self <= max self ->
  (exact_raw self m - min self) * pixels_in_unit self <= 1 # 2 ->
  exists self', interpret (m - 1) self = (self', Ok (min self)).
Proof.
  intros P B Near. rewrite (interpret_exact self (m - 1) P).
  eexists. f_equal. f_equal. apply clip_exact_below; [exact B|].
  pose proof (exact_raw_scaled self m (min self) P) as E.
  pose proof (exact_raw_scaled self (m - 1) (min self) P) as E'.
  unfold Z.sub in E'. rewrite inject_Z_plus in E'.
  change (inject_Z (- (1))) with (- (1)) in E'.
  assert ((exact_raw self (m - 1) - min self) * pixels_in_unit self < 0)
    as S by (unfold Z.sub; lra).
  apply scaled_neg in S; [lra|exact P].
Qed.

End ExactInterpreter.



(** ** No overshoot past a bound *)





(** ** Round trips *)

Section ListRoundTrip.

Context {F : Type} `{PyFloatOrder F}.
Variable A : Type.
Variable py_eq : A -> A -> bool.
Variable int0 : A.

Import ListSliderValues.

Lemma list_index_found (values : list A) (value : A) :
  list_contains A py_eq values value = true ->
  exists k item,
    list_index A py_eq values value = Ok k /\
    0 <= k < Z.of_nat (List.length values) /\
    nth_error values (Z.to_nat k) = Some item /\
    py_eq item value = true /\
    (forall j other,
        (j < Z.to_nat k)%nat -> nth_error values j = Some other ->
        py_eq other value = false).
Proof.
  induction values as [|item rest IH]; cbn [list_contains existsb];
    [discriminate|].
  cbn [list_index List.length]. destruct (py_eq item value) eqn:E.
  - intros _. exists 0, item.
    split; [reflexivity|]. split; [lia|]. split; [reflexivity|].
    split; [exact E|]. intros j other Hj. cbn in Hj. lia.
  - cbn [orb]. intros In. destruct (IH In) as (k & it & Ik & Rk & Nk & Ek & First).
    rewrite Ik. cbn [bind]. exists (k + 1), it.
    replace (Z.to_nat (k + 1)) with (S (Z.to_nat k)) by lia.
    split; [reflexivity|]. split; [lia|]. split; [exact Nk|].
    split; [exact Ek|].
    intros [|j] other Hj; cbn [nth_error].
    + intros [= <-]. exact E.
    + apply First. lia.
Qed.

Lemma list_getitem_nth (values : list A) (k : Z) (item : A) :
  0 <= k < Z.of_nat (List.length values) ->
  nth_error values (Z.to_nat k) = Some item ->
  list_getitem values k = Ok item.
Proof.
  intros R N. unfold list_getitem.
  replace (k <? 0) with false by (symmetry; apply Z.ltb_ge; lia).
  replace (0 <=? k) with true by (symmetry; apply Z.leb_le; lia).
  replace (k <? Z.of_nat (List.length values)) with true
    by (symmetry; apply Z.ltb_lt; lia).
  cbn [andb]. rewrite N. reflexivity.
Qed.

(** Where positions convert faithfully, [at] undoes [index]. *)
Lemma list_round_trip (values : list A) (e : A) :
  index_faithful F (Z.of_nat (List.length values)) ->
  list_contains A py_eq values e = true ->
  exists k x item,
    first_occurrence A py_eq values e k item /\
    of_int k = Ok x /\
    index A py_eq int0 values e = Ok x /\
    at_ A values x = Ok item /\
    py_eq item e = true.
Proof.
  intros Faithful In.
  destruct (list_index_found values e In)
    as (k & item & Ik & Rk & Nk & Ek & First).
  destruct (Faithful k Rk) as (x & hi & Ox & Lo & Oh & Hi & Rd).
  exists k, x, item.
  split; [unfold first_occurrence; repeat split; try assumption; lia|].
  split; [exact Ox|]. split; [|split; [|exact Ek]].
  - unfold index. rewrite In. cbn [negb]. rewrite Ik. cbn [bind]. exact Ox.
  - unfold at_, in_range, max. rewrite Lo, Oh. cbn [bind]. rewrite Hi.
    cbn [bind negb]. rewrite Rd. cbn [bind].
    now apply list_getitem_nth.
Qed.

(** Faithfulness follows from the step-by-step check. *)
Lemma steps_chain (n : Z) (k j : nat) :
  (forall i, 0 <= i < n -> step_ok (F := F) i = true) ->
  Z.of_nat k + Z.of_nat j < n ->
  exists x y,
    of_int (Z.of_nat k) = Ok x /\
    of_int (Z.of_nat k + Z.of_nat j + 1) = Ok y /\
    fleb x (fsub y (flit 51 100)) = true.
Proof.
  intros Steps. revert k. induction j as [|j IH]; intros k Bound.
  - pose proof (Steps (Z.of_nat k) ltac:(lia)) as St. unfold step_ok in St.
    replace (Z.of_nat k + Z.of_nat 0 + 1) with (Z.of_nat k + 1) by lia.
    destruct (of_int (Z.of_nat k)) as [x|]; [|discriminate].
    destruct (of_int (Z.of_nat k + 1)) as [y|]; [|discriminate].
    apply andb_prop in St as [St _]. apply andb_prop in St as [_ St].
    exists x, y. auto.
  - destruct (IH (S k) ltac:(lia)) as (x' & y & Ox' & Oy & L').
    pose proof (Steps (Z.of_nat k) ltac:(lia)) as St. unfold step_ok in St.
    replace (Z.of_nat k + 1) with (Z.of_nat (S k)) in St by lia.
    rewrite Ox' in St.
    destruct (of_int (Z.of_nat k)) as [x|]; [|discriminate].
    apply andb_prop in St as [St _]. apply andb_prop in St as [St _].
    apply andb_prop in St as [_ St].
    exists x, y. split; [reflexivity|]. split.
    + rewrite <- Oy. f_equal. lia.
    + exact (fleb_trans x x' _ St L').
Qed.

Lemma steps_faithful (n : Z) :
  (forall i, 0 <= i < n -> step_ok (F := F) i = true) ->
  index_faithful F n.
Proof.
  intros Steps k Rk.
  destruct (steps_chain n (Z.to_nat k) (Z.to_nat (n - k - 1)) Steps
              ltac:(lia)) as (x & y & Ox & Oy & L).
  replace (Z.of_nat (Z.to_nat k)) with k in * by lia.
  replace (k + Z.of_nat (Z.to_nat (n - k - 1)) + 1) with n in Oy by lia.
  pose proof (Steps k Rk) as St. unfold step_ok in St. rewrite Ox in St.
  destruct (of_int (k + 1)) as [y'|]; [|discriminate].
  apply andb_prop in St as [St Rd]. apply andb_prop in St as [St _].
  apply andb_prop in St as [Lo _].
  exists x, y. repeat split; try assumption.
  destruct (pyround x) as [r|]; [|discriminate].
  apply Z.eqb_eq in Rd. now subst r.
Qed.

End ListRoundTrip.

Lemma round_inject_Z (k : Z) : Exact.round (inject_Z k) = k.
Proof.
  unfold Exact.round. rewrite Qfloor_Z.
  destruct (Qcompare_spec (inject_Z k - inject_Z k) (1 # 2)) as [E|L|G].
  - lra.
  - reflexivity.
  - lra.
Qed.

Lemma exact_step_ok (k : Z) : 0 <= k -> ListSliderValues.step_ok (F := Q) k = true.
Proof.
  intros Pos. unfold ListSliderValues.step_ok, ListSliderValues.min.
  cbn [of_int fleb fsub flit pyround Exact.Q_PyFloat].
  rewrite round_inject_Z, Z.eqb_refl, andb_true_r.
  rewrite inject_Z_plus. change (inject_Z 1) with 1%Q.
  assert (0 <= inject_Z k)%Q as P.
  { change 0%Q with (inject_Z 0). rewrite <- Zle_Qle. exact Pos. }
  repeat (apply andb_true_intro; split); apply Qle_bool_iff; lra.
Qed.

Lemma exact_index_faithful (n : Z) : ListSliderValues.index_faithful Q n.
Proof.
  apply steps_faithful. intros i Ri. apply exact_step_ok. lia.
Qed.

Lemma all_steps_ok_spec (F : Type) (ops : PyFloat F) (n : nat) :
  ListSliderValues.all_steps_ok (F := F) n = true ->
  forall i, 0 <= i < Z.of_nat n -> ListSliderValues.step_ok (F := F) i = true.
Proof.
  unfold ListSliderValues.all_steps_ok. rewrite forallb_forall.
  intros All i Ri. specialize (All (Z.to_nat i)).
  replace (Z.of_nat (Z.to_nat i)) with i in All by lia.
  apply All, in_seq. lia.
Qed.

Arguments all_steps_ok_spec {F ops} n _ i _.

(** Lists of up to 4096 elements, position by position on binary64. *)
Lemma binary64_steps_ok :
  ListSliderValues.all_steps_ok (F := float) 4096 = true.
Proof. vm_compute. reflexivity. Qed.

Lemma binary64_index_faithful (n : Z) :
  n <= 4096 -> ListSliderValues.index_faithful float n.
Proof.
  intros Bound. apply steps_faithful. intros i Ri.
  apply (all_steps_ok_spec 4096 binary64_steps_ok). lia.
Qed.



(** ** [AngleIterator] in exact arithmetic

    With exact arithmetic the loop of [_float_range] leaves after
    [amount] passes, and the angles are the roundings of [k * 360 /
    amount]: what the binary64 run misses for [amount = 13] is due to the
    rounding of the repeated additions alone. *)

Section ExactAngles.

Local Open Scope Q_scope.

Lemma exact_round_compat (x y : Q) : x == y -> Exact.round x = Exact.round y.
Proof.
  intros E. unfold Exact.round. rewrite (Qfloor_comp x y E).
  assert (x - inject_Z (Qfloor y) == y - inject_Z (Qfloor y)) as E'
    by (rewrite E; reflexivity).
  rewrite (Qcompare_comp _ _ E' (1 # 2) (1 # 2) (Qeq_refl _)).
  reflexivity.
Qed.

Variable amount : nat.
Hypothesis amount_pos : (0 < amount)%nat.

Let step : Q := inject_Z 360 / inject_Z (Z.of_nat amount).

Lemma amount_steps : inject_Z (Z.of_nat amount) * step == inject_Z 360.
Proof.
  unfold step. field. intros E.
  assert (0 < inject_Z (Z.of_nat amount)) as P.
  { change 0 with (inject_Z 0). rewrite <- Zlt_Qlt. lia. }
  lra.
Qed.

Lemma step_pos : 0 < step.
Proof.
  unfold step. apply Qlt_shift_div_l.
  - change 0 with (inject_Z 0). rewrite <- Zlt_Qlt. lia.
  - rewrite Qmult_0_l. reflexivity.
Qed.

Lemma float_range_exact (d : nat) :
  forall (k fuel : nat) (start : Q),
    (k + d = amount)%nat ->
    start == inject_Z (Z.of_nat k) * step ->
    (d <= fuel)%nat ->
    exists l,
      _float_range fuel start (inject_Z 360) step = Some l /\
      List.length l = d /\
      forall j x, nth_error l j = Some x ->
                  x == inject_Z (Z.of_nat (k + j)) * step.
Proof.
  induction d as [|d IH]; intros k fuel start Sum Start Fuel.
  - exists []. split; [|split; [reflexivity|]].
    + assert (fltb start (inject_Z 360) = false) as T.
      { cbn [fltb Exact.Q_PyFloat]. apply negb_false_iff, Qle_bool_iff.
        rewrite Start. replace k with amount by lia.
        rewrite amount_steps. apply Qle_refl. }
      destruct fuel; cbn [_float_range]; rewrite T; reflexivity.
    + intros [|j] x; discriminate.
  - destruct fuel as [|fuel]; [lia|].
    assert (fltb start (inject_Z 360) = true) as T.
    { cbn [fltb Exact.Q_PyFloat]. apply negb_Qle_bool.
      rewrite Start, <- amount_steps.
      apply Qmult_lt_compat_r; [exact step_pos|].
      rewrite <- Zlt_Qlt. lia. }
    destruct (IH (S k) fuel (fadd start step)) as (l & Run & Len & Nth).
    + lia.
    + cbn [fadd Exact.Q_PyFloat]. rewrite Start.
      replace (Z.of_nat (S k)) with (Z.of_nat k + 1)%Z by lia.
      rewrite inject_Z_plus. change (inject_Z 1) with 1. ring.
    + lia.
    + exists (start :: l). cbn [_float_range]. rewrite T, Run.
      split; [reflexivity|]. split; [cbn [List.length]; lia|].
      intros [|j] x; cbn [nth_error].
      * intros [= <-]. rewrite Start. now rewrite Nat.add_0_r.
      * intros N. rewrite (Nth j x N).
        now replace (S k + j)%nat with (k + S j)%nat by lia.
Qed.

(** In exact arithmetic the iterator yields [amount] items, the [j]-th
    with angle [round(j * 360 / amount)]. *)
Lemma exact_angles (QPoint : Type) (center : Q -> QPoint) :
  exists angles,
    yielded_angles QPoint center amount (Z.of_nat amount)
      = Ok (Some angles) /\
    List.length angles = amount /\
    forall j a, nth_error angles j = Some a ->
                a = Ok (Exact.round (inject_Z (Z.of_nat j) * step)).
Proof.
  destruct (float_range_exact amount 0 amount 0) as (l & Run & Len & Nth).
  - lia.
  - cbn. ring.
  - lia.
  - exists (map pyround l).
    unfold yielded_angles, AngleIterator_iter.
    cbn [of_int fdiv Exact.Q_PyFloat bind]. unfold Exact.div.
    destruct (Qeq_bool (inject_Z (Z.of_nat amount)) 0) eqn:E.
    + exfalso. apply Qeq_bool_iff in E.
      assert (0 < inject_Z (Z.of_nat amount)) as P.
      { change 0 with (inject_Z 0). rewrite <- Zlt_Qlt. lia. }
      lra.
    + cbn [bind]. fold step. change (inject_Z 0) with 0. rewrite Run.
      cbn [option_map]. rewrite map_map. cbn [fst].
      split; [reflexivity|]. split; [now rewrite length_map|].
      intros j a N. rewrite nth_error_map in N.
      destruct (nth_error l j) as [x|] eqn:Nx; [|discriminate].
      injection N as <-. cbn [pyround Exact.Q_PyFloat]. f_equal.
      apply exact_round_compat. exact (Nth j x Nx).
Qed.

End ExactAngles.

(** * Further properties of the code *)

(** ** [PieValues]: what [apply] stores and [refresh] reads back *)

Lemma split_not_nil (sep : ascii) (s : string) : split sep s <> [].
Proof.
  destruct s as [|c rest]; cbn [split]; [discriminate|].
  destruct (Ascii.eqb c sep); [discriminate|].
  destruct (split sep rest); discriminate.
Qed.

Lemma join_cons (sep : string) (text : string) (rest : list string) :
  rest <> [] -> join sep (text :: rest) = (text ++ sep ++ join sep rest)%string.
Proof. destruct rest; [congruence|reflexivity]. Qed.

Lemma join_split (sep : ascii) (s : string) :
  join (String sep EmptyString) (split sep s) = s.
Proof.
  induction s as [|c rest IH]; [reflexivity|]. cbn [split].
  destruct (Ascii.eqb c sep) eqn:E.
  - apply Ascii.eqb_eq in E. subst c.
    rewrite join_cons by apply split_not_nil. rewrite IH. reflexivity.
  - pose proof (split_not_nil sep rest) as NE.
    destruct (split sep rest) as [|piece pieces]; [congruence|].
    destruct pieces as [|piece' pieces].
    + cbn in IH |- *. now rewrite IH.
    + rewrite join_cons in IH |- * by discriminate.
      cbn [String.append] in IH |- *. now rewrite IH.
Qed.

Lemma split_app (sep : ascii) (a b : string) :
  split sep (a ++ String sep b) = split sep a ++ split sep b.
Proof.
  induction a as [|c a IH]; cbn [String.append split].
  - now rewrite Ascii.eqb_refl.
  - destruct (Ascii.eqb c sep); [now rewrite IH|].
    rewrite IH. pose proof (split_not_nil sep a) as NE.
    destruct (split sep a); [congruence|reflexivity].
Qed.

Lemma split_join (sep : ascii) (texts : list string) :
  texts <> [] ->
  split sep (join (String sep EmptyString) texts) = flat_map (split sep) texts.
Proof.
  induction texts as [|text rest IH]; [congruence|]. intros _.
  destruct rest as [|text' rest].
  - cbn. now rewrite app_nil_r.
  - rewrite join_cons by discriminate. cbn [String.append flat_map].
    rewrite split_app, IH by discriminate. reflexivity.
Qed.

Lemma split_without (sep : ascii) (s : string) :
  has_char sep s = false -> split sep s = [s].
Proof.
  induction s as [|c rest IH]; [reflexivity|]. cbn [has_char split].
  intros [E H]%orb_false_elim. rewrite E, (IH H). reflexivity.
Qed.

Lemma flat_map_split_without (sep : ascii) (texts : list string) :
  forallb (fun text => negb (has_char sep text)) texts = true ->
  flat_map (split sep) texts = texts.
Proof.
  induction texts as [|text rest IH]; [reflexivity|]. cbn [forallb flat_map].
  intros [E H]%andb_prop. apply negb_true_iff in E.
  rewrite (split_without sep text E), (IH H). reflexivity.
Qed.

(** X1.  [apply] then [refresh], on a list that has at least one row:
    the rows come back cut at every [;] they contain, and come back as
    they were when no row contains a [;]. *)
Theorem refresh_after_apply :
  forall self : PieValues.t,
    PieValues.rows self <> [] ->
    PieValues.rows (PieValues.refresh (PieValues.apply self))
      = flat_map (split ";") (PieValues.rows self) /\
    (forallb (fun text => negb (has_char ";" text)) (PieValues.rows self)
       = true ->
     PieValues.rows (PieValues.refresh (PieValues.apply self))
       = PieValues.rows self).
Proof.
  intros self NE. unfold PieValues.refresh, PieValues.apply.
  cbn [PieValues.rows PieValues.stored].
  rewrite (split_join ";" _ NE). split; [reflexivity|].
  apply flat_map_split_without.
Qed.

Lemma refresh_after_apply_witness :
  PieValues.rows
    (PieValues.refresh
       (PieValues.apply (PieValues.Build ["NORMAL"%string; "OVERLAY"%string] EmptyString)))
    = ["NORMAL"%string; "OVERLAY"%string] /\
  PieValues.rows
    (PieValues.refresh
       (PieValues.apply (PieValues.Build ["a;b"%string; "c"%string] EmptyString)))
    = ["a"%string; "b"%string; "c"%string].
Proof.
  split.
  - apply (refresh_after_apply (PieValues.Build ["NORMAL"%string; "OVERLAY"%string] EmptyString));
      [discriminate|reflexivity].
  - apply (refresh_after_apply (PieValues.Build ["a;b"%string; "c"%string] EmptyString)).
    discriminate.
Defined.

(** X2.  [refresh] then [apply] stores the string that was stored:
    joining the pieces of a split gives the string back, whatever it is. *)
Theorem apply_after_refresh :
  forall self : PieValues.t,
    PieValues.stored (PieValues.apply (PieValues.refresh self))
      = PieValues.stored self.
Proof.
  intros self. unfold PieValues.refresh, PieValues.apply.
  cbn [PieValues.rows PieValues.stored]. apply (join_split ";").
Qed.

(** X3.  [refresh] never leaves the list without rows, and an empty list
    does not survive [apply] then [refresh]: no row is stored as the empty
    string, which reads back as one row with an empty text. *)
Theorem refresh_never_empty :
  forall (self : PieValues.t) (s : string),
    PieValues.rows (PieValues.refresh self) <> [] /\
    PieValues.stored (PieValues.apply (PieValues.Build [] s)) = EmptyString /\
    PieValues.rows (PieValues.refresh (PieValues.apply (PieValues.Build [] s)))
      = [EmptyString].
Proof.
  intros self s. split; [apply split_not_nil|]. split; reflexivity.
Qed.

(** ** [CyclicTool]: the tool a press activates *)

Section Cycle.

Import CyclicTool.

Lemma first_next_at (l : list string) (fillvalue current d : string) (i : nat) :
  nth_error l i = Some current ->
  (forall j, (j < i)%nat -> nth_error l j <> Some current) ->
  first_next current (zip_longest l (tl l) fillvalue)
  = Some (if (S i <? List.length l)%nat then nth (S i) l d else fillvalue).
Proof.
  revert i. induction l as [|x rest IH]; intros i At First.
  - destruct i; discriminate.
  - destruct i as [|i].
    + injection At as ->. destruct rest as [|y rest]; cbn.
      * now rewrite String.eqb_refl.
      * now rewrite String.eqb_refl.
    + assert (String.eqb x current = false) as Ne.
      { apply String.eqb_neq. intros ->. apply (First 0%nat); [lia|reflexivity]. }
      cbn [nth_error] in At.
      assert (forall j, (j < i)%nat -> nth_error rest j <> Some current) as First'.
      { intros j Hj. apply (First (S j)). lia. }
      specialize (IH i At First').
      destruct rest as [|y rest]; [destruct i; discriminate|].
      cbn [tl zip_longest first_next] in IH |- *. rewrite Ne.
      cbn [tl] in IH. rewrite IH.
      change (S (S i) <? List.length (x :: y :: rest))%nat
        with (S i <? List.length (y :: rest))%nat.
      reflexivity.
Qed.

Lemma first_next_absent (l : list string) (fillvalue current : string) :
  existsb (fun tool => String.eqb tool current) l = false ->
  first_next current (zip_longest l (tl l) fillvalue) = None.
Proof.
  induction l as [|x rest IH]; [reflexivity|]. cbn [existsb].
  intros [Ne Rest]%orb_false_elim. specialize (IH Rest).
  destruct rest as [|y rest]; cbn [tl zip_longest first_next] in IH |- *;
    rewrite Ne; [reflexivity|exact IH].
Qed.

Lemma list_getitem_head (A : Type) (x : A) (rest : list A) :
  list_getitem (x :: rest) 0 = Ok x.
Proof.
  unfold list_getitem. cbn [Z.ltb Z.compare Z.leb andb].
  replace (0 <? Z.of_nat (List.length (x :: rest))) with true
    by (symmetry; apply Z.ltb_lt; cbn [List.length]; lia).
  reflexivity.
Qed.

Lemma set_high_at (self : t) (current : string) (i : nat) :
  nth_error (tools self) i = Some current ->
  (forall j, (j < i)%nat -> nth_error (tools self) j <> Some current) ->
  set_high self current
  = Ok (Some (nth (S i mod List.length (tools self)) (tools self) EmptyString)).
Proof.
  intros At First. unfold set_high.
  destruct (tools self) as [|x rest] eqn:T; [destruct i; discriminate|].
  rewrite list_getitem_head. cbn [bind].
  rewrite (first_next_at (x :: rest) x current EmptyString i At First).
  assert (i < List.length (x :: rest))%nat as Bound
    by (apply nth_error_Some; congruence).
  destruct (S i <? List.length (x :: rest))%nat eqn:L.
  - apply Nat.ltb_lt in L. now rewrite Nat.mod_small.
  - apply Nat.ltb_ge in L.
    replace (S i) with (List.length (x :: rest)) by lia.
    rewrite Nat.Div0.mod_same. reflexivity.
Qed.

Lemma nodup_first (l : list string) (i : nat) (d : string) :
  NoDup l -> (i < List.length l)%nat ->
  forall j, (j < i)%nat -> nth_error l j <> Some (nth i l d).
Proof.
  intros ND Bound j Hj E.
  assert (nth_error l i = Some (nth i l d)) as Ei
    by (apply nth_error_nth'; exact Bound).
  rewrite NoDup_nth_error in ND.
  assert (j = i) by (apply ND; [lia|congruence]). lia.
Qed.

Lemma press_nth (self : t) (i : nat) :
  NoDup (tools self) -> (i < List.length (tools self))%nat ->
  press self (nth i (tools self) EmptyString)
  = nth (S i mod List.length (tools self)) (tools self) EmptyString.
Proof.
  intros ND Bound. unfold press.
  rewrite (set_high_at self _ i).
  - reflexivity.
  - apply nth_error_nth'. exact Bound.
  - now apply nodup_first.
Qed.

Lemma press_iter (self : t) (i k : nat) :
  NoDup (tools self) -> (i < List.length (tools self))%nat ->
  Nat.iter k (press self) (nth i (tools self) EmptyString)
  = nth ((i + k) mod List.length (tools self)) (tools self) EmptyString.
Proof.
  intros ND Bound. induction k as [|k IH].
  - cbn. now rewrite Nat.add_0_r, Nat.mod_small.
  - rewrite Nat.iter_succ, IH, press_nth.
    + f_equal. replace (i + S k)%nat with ((i + k) + 1)%nat by lia.
      replace (S ((i + k) mod List.length (tools self)))
        with ((i + k) mod List.length (tools self) + 1)%nat by lia.
      apply Nat.Div0.add_mod_idemp_l.
    + exact ND.
    + apply Nat.mod_upper_bound. lia.
Qed.

End Cycle.

(** X4.  [set_high] with the current tool in the list, first at position
    [i]: the tool handed to [_set_tool] is the one at position [i + 1],
    and the first tool of the list when [i] is the last position. *)
Theorem set_high_activates_the_next_tool :
  forall (self : CyclicTool.t) (current_tool : string) (i : nat),
    nth_error (CyclicTool.tools self) i = Some current_tool ->
    (forall j, (j < i)%nat ->
               nth_error (CyclicTool.tools self) j <> Some current_tool) ->
    CyclicTool.set_high self current_tool
    = Ok (Some (nth (S i mod List.length (CyclicTool.tools self))
                    (CyclicTool.tools self) EmptyString)).
Proof. exact set_high_at. Qed.

Lemma set_high_activates_the_next_tool_witness :
  CyclicTool.set_high
    (CyclicTool.Build "cycle"
       ["brush"%string; "line"%string; "fill"%string] "brush")
    "line" = Ok (Some "fill"%string) /\
  CyclicTool.set_high
    (CyclicTool.Build "cycle"
       ["brush"%string; "line"%string; "fill"%string] "brush")
    "fill" = Ok (Some "brush"%string).
Proof.
  split.
  - apply (set_high_activates_the_next_tool
             (CyclicTool.Build "cycle"
                ["brush"%string; "line"%string; "fill"%string] "brush")
             "line" 1); [reflexivity|].
    intros [|j] Hj; [discriminate|lia].
  - apply (set_high_activates_the_next_tool
             (CyclicTool.Build "cycle"
                ["brush"%string; "line"%string; "fill"%string] "brush")
             "fill" 2); [reflexivity|].
    intros [|[|j]] Hj; [discriminate|discriminate|lia].
Defined.

(** X5.  When the current tool is not in the list, which is when
    [is_high_state] answers [True], [set_high] hands nothing to
    [_set_tool], provided the list is not empty; over the empty list
    [set_high] raises [IndexError] whatever the current tool, the fill
    value [self.tools[0]] being evaluated first. *)
Theorem set_high_outside_the_cycle :
  forall (self : CyclicTool.t) (current_tool : string),
    (CyclicTool.tools self = [] ->
     CyclicTool.set_high self current_tool = Raise IndexError) /\
    (CyclicTool.tools self <> [] ->
     CyclicTool.is_high_state self current_tool = true ->
     CyclicTool.set_high self current_tool = Ok None).
Proof.
  intros self current_tool. unfold CyclicTool.set_high, CyclicTool.is_high_state.
  split.
  - intros ->. reflexivity.
  - intros NE High. apply negb_true_iff in High.
    destruct (CyclicTool.tools self) as [|x rest]; [congruence|].
    rewrite list_getitem_head. cbn [bind].
    now rewrite first_next_absent.
Qed.

Lemma set_high_outside_the_cycle_witness :
  CyclicTool.set_high (CyclicTool.Build "cycle" [] "brush") "line"
    = Raise IndexError /\
  CyclicTool.set_high
    (CyclicTool.Build "cycle" ["brush"%string; "line"%string] "brush")
    "fill" = Ok None.
Proof.
  split.
  - apply (set_high_outside_the_cycle
             (CyclicTool.Build "cycle" [] "brush") "line"). reflexivity.
  - apply (set_high_outside_the_cycle
             (CyclicTool.Build "cycle" ["brush"%string; "line"%string] "brush")
             "fill"); [discriminate|reflexivity].
Defined.

(** X6.  Over a list without repetition, starting from a tool of the
    list and with every activated tool becoming the current one, [k]
    presses lead from position [i] to position [(i + k) mod n], so that as
    many presses as the list has tools lead back to the starting tool. *)
Theorem presses_cycle_through_the_tools :
  forall (self : CyclicTool.t) (i k : nat),
    NoDup (CyclicTool.tools self) ->
    (i < List.length (CyclicTool.tools self))%nat ->
    Nat.iter k (CyclicTool.press self)
      (nth i (CyclicTool.tools self) EmptyString)
    = nth ((i + k) mod List.length (CyclicTool.tools self))
          (CyclicTool.tools self) EmptyString /\
    Nat.iter (List.length (CyclicTool.tools self)) (CyclicTool.press self)
      (nth i (CyclicTool.tools self) EmptyString)
    = nth i (CyclicTool.tools self) EmptyString.
Proof.
  intros self i k ND Bound. split; [now apply press_iter|].
  rewrite press_iter by assumption.
  replace (i + List.length (CyclicTool.tools self))%nat
    with (i + 1 * List.length (CyclicTool.tools self))%nat by lia.
  rewrite Nat.Div0.mod_add. now rewrite Nat.mod_small.
Qed.

Lemma presses_cycle_through_the_tools_witness :
  Nat.iter 3
    (CyclicTool.press
       (CyclicTool.Build "cycle"
          ["brush"%string; "line"%string; "fill"%string] "brush"))
    "line"%string = "line"%string.
Proof.
  apply (proj2 (presses_cycle_through_the_tools
                  (CyclicTool.Build "cycle"
                     ["brush"%string; "line"%string; "fill"%string] "brush")
                  1 0
                  ltac:(repeat constructor; cbn; intuition discriminate)
                  ltac:(cbn; lia))).
Defined.

(** ** The value-setting loop *)

Section LoopFacts.

Context {F : Type} `{PyFloatOrder F}.

Import ValueSetting.

Lemma interpret_result_bounds (self self' : MouseInterpreter.t F)
    (mouse : Z) (r : F) :
  fleb (MouseInterpreter.min self) (MouseInterpreter.max self) = true ->
  MouseInterpreter.interpret mouse self = (self', Ok r) ->
  fleb (MouseInterpreter.min self) r = true /\
  fleb r (MouseInterpreter.max self) = true.
Proof.
  intros L. rewrite interpret_unfold.
  destruct (MouseInterpreter._delta mouse self) as [s [d|e]]; [|discriminate].
  cbn zeta.
  pose proof (_recalibrate_frame
                (fadd (MouseInterpreter.start_value self) d) self) as R.
  destruct (MouseInterpreter._recalibrate _ self) as [s1 [[]|e]];
    [|discriminate].
  destruct R as (E1 & E2 & _). cbn in E1, E2.
  intros E. injection E as _ <-. rewrite E1, E2. now apply clip_bounds.
Qed.

Lemma loop_range_bounds (values : Range F) (ticks : list SliderHandler.tick) :
  fleb (range_min values) (range_max values) = true ->
  forall interpreter,
    MouseInterpreter.min interpreter = range_min values ->
    MouseInterpreter.max interpreter = range_max values ->
    Forall (fun v => fleb (range_min values) v = true /\
                     fleb v (range_max values) = true)
           (fst (loop (range_values values) interpreter ticks)).
Proof.
  intros L. induction ticks as [|[mouse working] rest IH];
    intros interpreter Lo Hi; cbn [loop fst]; [constructor|].
  destruct working; cbn [negb]; [|constructor].
  pose proof (interpret_frame mouse interpreter) as (F1 & F2 & _).
  destruct (MouseInterpreter.interpret mouse interpreter)
    as [interpreter' [clipped|e]] eqn:Call; [|constructor].
  cbn [fst] in F1, F2.
  destruct (interpret_result_bounds interpreter interpreter' mouse clipped)
    as [B1 B2]; [congruence|exact Call|].
  rewrite Lo in B1. rewrite Hi in B2.
  cbn [range_values sv_at]. unfold RangeSliderValues.at_,
    RangeSliderValues.in_range, RangeSliderValues.__init__.
  cbn [RangeSliderValues.min RangeSliderValues.max]. rewrite B1, B2.
  cbn [andb negb].
  specialize (IH interpreter' ltac:(congruence) ltac:(congruence)).
  destruct (loop (range_values values) interpreter' rest) as [written how].
  cbn [fst] in *. constructor; auto.
Qed.

Lemma loop_stops (C : Type) (to_cycle : SliderValues C)
    (pre : list SliderHandler.tick) (mouse : Z)
    (rest : list SliderHandler.tick) :
  forall interpreter,
    loop to_cycle interpreter (pre ++ SliderHandler.Tick mouse false :: rest)
    = loop to_cycle interpreter (pre ++ [SliderHandler.Tick mouse false]) /\
    (List.length
       (fst (loop to_cycle interpreter
               (pre ++ SliderHandler.Tick mouse false :: rest)))
     <= List.length pre)%nat /\
    snd (loop to_cycle interpreter
           (pre ++ SliderHandler.Tick mouse false :: rest)) <> LoopRunning.
Proof.
  induction pre as [|[m w] pre IH]; intros interpreter; cbn [app loop].
  - cbn. repeat split; [lia|discriminate].
  - destruct w; cbn [negb]; [|cbn; repeat split; [lia|discriminate]].
    destruct (MouseInterpreter.interpret m interpreter)
      as [interpreter' [clipped|e]];
      [|cbn; repeat split; [lia|discriminate]].
    destruct (sv_at to_cycle clipped) as [to_set|e];
      [|cbn; repeat split; [lia|discriminate]].
    destruct (IH interpreter') as (Same & Len & End). rewrite Same in *.
    destruct (loop to_cycle interpreter'
                (pre ++ [SliderHandler.Tick mouse false])) as [written how].
    cbn [fst snd List.length] in *. repeat split; [lia|exact End].
Qed.

Lemma list_getitem_In (A : Type) (values : list A) (i : Z) (item : A) :
  list_getitem values i = Ok item -> In item values.
Proof.
  unfold list_getitem.
  destruct ((0 <=? _) && (_ <? _)); [|discriminate].
  destruct (nth_error values _) as [a|] eqn:N; [|discriminate].
  intros [= <-]. eapply nth_error_In. exact N.
Qed.

Lemma loop_list_elements (A : Type) (py_eq : A -> A -> bool) (int0 : A)
    (values : list A) (ticks : list SliderHandler.tick) :
  forall interpreter,
    Forall (fun v => In v values)
           (fst (loop (list_values A py_eq int0 values) interpreter ticks)).
Proof.
  induction ticks as [|[mouse working] rest IH]; intros interpreter;
    cbn [loop fst]; [constructor|].
  destruct working; cbn [negb]; [|constructor].
  destruct (MouseInterpreter.interpret mouse interpreter)
    as [interpreter' [clipped|e]]; [|constructor].
  cbn [list_values sv_at].
  destruct (ListSliderValues.at_ A values clipped) as [to_set|e] eqn:At;
    [|constructor].
  specialize (IH interpreter').
  destruct (loop (list_values A py_eq int0 values) interpreter' rest)
    as [written how].
  cbn [fst] in *. constructor; [|exact IH].
  unfold ListSliderValues.at_ in At.
  destruct (ListSliderValues.in_range A values clipped) as [ok|]; [|discriminate].
  cbn [bind] in At.
  destruct (if negb ok then Ok ListSliderValues.__default else pyround clipped)
    as [i|]; [|discriminate].
  cbn [bind] in At. eapply list_getitem_In. exact At.
Qed.

Lemma list_index_absent (A : Type) (py_eq : A -> A -> bool)
    (values : list A) (value : A) :
  ListSliderValues.list_contains A py_eq values value = false ->
  ListSliderValues.list_index A py_eq values value = Raise ValueError.
Proof.
  induction values as [|item rest IH]; [reflexivity|].
  cbn [ListSliderValues.list_contains existsb ListSliderValues.list_index].
  intros [Ne Rest]%orb_false_elim. rewrite Ne.
  unfold ListSliderValues.list_contains in IH. now rewrite (IH Rest).
Qed.

End LoopFacts.

(** X7.  A range-backed slider with [min <= max] only hands values of
    [[min, max]] to the controller, whatever the scale, the pointer
    positions and the controller's value at the start; on binary64 as in
    exact arithmetic. *)
Theorem range_slider_writes_within_bounds :
  forall (F : Type) (ops : PyFloat F) (laws : PyFloatOrder F)
         (values : Range F) (pixels_in_unit : F) (mouse : Z)
         (controller_value : F) (ticks : list SliderHandler.tick),
    fleb (range_min values) (range_max values) = true ->
    Forall (fun v => fleb (range_min values) v = true /\
                     fleb v (range_max values) = true)
           (fst (ValueSetting._value_setting_loop
                   (ValueSetting.range_values values)
                   pixels_in_unit mouse controller_value ticks)).
Proof.
  intros F ops laws values pixels_in_unit mouse controller_value ticks L.
  unfold ValueSetting._value_setting_loop, ValueSetting.__update_interpreter.
  cbn [ValueSetting.range_values ValueSetting.sv_max ValueSetting.sv_index
         ValueSetting.sv_min bind].
  apply (loop_range_bounds values ticks L); reflexivity.
Qed.

Lemma range_slider_writes_within_bounds_witness :
  Forall (fun v : float => fleb (flit 0 1) v = true /\
                           fleb v (flit 100 1) = true)
         (fst (ValueSetting._value_setting_loop
                 (ValueSetting.range_values (MkRange (flit 0 1) (flit 100 1)))
                 (flit 2 1) 640 (flit 50 1)
                 [SliderHandler.Tick 700 true; SliderHandler.Tick 900 true;
                  SliderHandler.Tick 300 true])).
Proof.
  apply (range_slider_writes_within_bounds float _ _
           (MkRange (flit 0 1) (flit 100 1))).
  reflexivity.
Defined.

(** X8.  Once the loop finds the flag cleared it leaves: the observations
    that follow change nothing, nothing is written at or after that pass
    (at most one value per earlier pass), and the loop is not running any
    more. *)
Theorem cleared_flag_ends_the_loop :
  forall (F : Type) (ops : PyFloat F) (C : Type)
         (to_cycle : ValueSetting.SliderValues C)
         (interpreter : MouseInterpreter.t F)
         (pre : list SliderHandler.tick) (mouse : Z)
         (rest : list SliderHandler.tick),
    ValueSetting.loop to_cycle interpreter
      (pre ++ SliderHandler.Tick mouse false :: rest)
    = ValueSetting.loop to_cycle interpreter
        (pre ++ [SliderHandler.Tick mouse false]) /\
    (List.length
       (fst (ValueSetting.loop to_cycle interpreter
               (pre ++ SliderHandler.Tick mouse false :: rest)))
     <= List.length pre)%nat /\
    snd (ValueSetting.loop to_cycle interpreter
           (pre ++ SliderHandler.Tick mouse false :: rest))
    <> ValueSetting.LoopRunning.
Proof.
  intros F ops C to_cycle interpreter pre mouse rest.
  apply loop_stops.
Qed.

(** X9.  A list-backed slider only hands elements of the list to the
    controller. *)
Theorem list_slider_writes_elements :
  forall (F : Type) (ops : PyFloat F) (A : Type) (py_eq : A -> A -> bool)
         (int0 : A) (values : list A) (pixels_in_unit : F) (mouse : Z)
         (controller_value : A) (ticks : list SliderHandler.tick),
    Forall (fun v => In v values)
           (fst (ValueSetting._value_setting_loop
                   (ValueSetting.list_values A py_eq int0 values)
                   pixels_in_unit mouse controller_value ticks)).
Proof.
  intros F ops A py_eq int0 values pixels_in_unit mouse controller_value ticks.
  unfold ValueSetting._value_setting_loop.
  destruct (ValueSetting.__update_interpreter _ _ _ _) as [interpreter|e];
    [|constructor].
  apply loop_list_elements.
Qed.

(** X10.  A list-backed slider whose controller holds a value that is not
    in the list, over a list that holds no element equal to [0], never
    starts: building the interpreter raises, and nothing is handed to the
    controller. *)
Theorem list_slider_with_foreign_value_raises :
  forall (F : Type) (ops : PyFloat F) (A : Type) (py_eq : A -> A -> bool)
         (int0 : A) (values : list A) (pixels_in_unit : F) (mouse : Z)
         (controller_value : A) (ticks : list SliderHandler.tick),
    ListSliderValues.list_contains A py_eq values controller_value = false ->
    ListSliderValues.list_contains A py_eq values int0 = false ->
    exists e,
      ValueSetting._value_setting_loop
        (ValueSetting.list_values A py_eq int0 values)
        pixels_in_unit mouse controller_value ticks
      = ([], ValueSetting.LoopRaised e).
Proof.
  intros F ops A py_eq int0 values pixels_in_unit mouse controller_value ticks
    Foreign NoZero.
  unfold ValueSetting._value_setting_loop, ValueSetting.__update_interpreter.
  cbn [ValueSetting.list_values ValueSetting.sv_max ValueSetting.sv_index
         ValueSetting.sv_min].
  destruct (ListSliderValues.max A values) as [hi|e]; cbn [bind];
    [|now exists e].
  unfold ListSliderValues.index. rewrite Foreign. cbn [negb].
  rewrite (list_index_absent A py_eq values int0 NoZero). cbn [bind].
  now exists ValueError.
Qed.

Lemma list_slider_with_foreign_value_raises_witness :
  exists e,
    @ValueSetting._value_setting_loop float _ pyobj
      (ValueSetting.list_values pyobj pyobj_eq (PyInt 0)
         [PyStr "a"; PyStr "b"])
      (flit 50 1) 640 (PyStr "c") [SliderHandler.Tick 700 true]
    = ([], ValueSetting.LoopRaised e).
Proof.
  apply (list_slider_with_foreign_value_raises float _ pyobj pyobj_eq (PyInt 0)
           [PyStr "a"; PyStr "b"]); reflexivity.
Defined.

(** X11.  A [stop()] seen while the pointer is within the deadzone ends
    the thread there: the value-setting loop is never entered, wherever
    the pointer goes afterwards. *)
Theorem stop_in_deadzone_never_tracks :
  forall (deadzone start_point : Z) (pre : list SliderHandler.tick)
         (tk : SliderHandler.tick) (rest : list SliderHandler.tick),
    forallb (fun t => SliderHandler.within_deadzone deadzone start_point t
                      && SliderHandler.working t) pre = true ->
    SliderHandler.within_deadzone deadzone start_point tk = true ->
    SliderHandler.working tk = false ->
    SliderHandler._start_after_deadzone deadzone start_point
      (pre ++ tk :: rest) = SliderHandler.Stopped.
Proof.
  intros deadzone start_point pre tk rest Pre In Off.
  now apply deadzone_loop_stops.
Qed.

Lemma stop_in_deadzone_never_tracks_witness :
  SliderHandler._start_after_deadzone 5 100
    ([SliderHandler.Tick 102 true] ++ SliderHandler.Tick 103 false
       :: [SliderHandler.Tick 400 true])
  = SliderHandler.Stopped.
Proof.
  apply (stop_in_deadzone_never_tracks 5 100 [SliderHandler.Tick 102 true]
           (SliderHandler.Tick 103 false) [SliderHandler.Tick 400 true]);
    reflexivity.
Defined.

(** ** [MouseInterpreter]: a zero scale, and leaving a bound *)

Lemma binary64_of_Z_cases (z : Z) :
  Binary64.of_Z z = Raise OverflowError \/ exists x, Binary64.of_Z z = Ok x.
Proof.
  unfold Binary64.of_Z. destruct (Binary64.spec_of_Z z); eauto.
Qed.

(** X12.  With [pixels_in_unit] equal to zero every call of [interpret]
    raises and leaves the object as it was: [ZeroDivisionError], unless the
    distance to the origin is too large to convert to a float, in which
    case the conversion raises [OverflowError] first. *)
Theorem zero_scale_always_raises :
  forall (self : MouseInterpreter.t float) (mouse : Z),
    feqb (MouseInterpreter.pixels_in_unit self) (flit 0 1) = true ->
    MouseInterpreter.interpret mouse self = (self, Raise ZeroDivisionError) \/
    MouseInterpreter.interpret mouse self = (self, Raise OverflowError) /\
    of_int (mouse - MouseInterpreter.mouse_origin self)
      = (Raise OverflowError : result float).
Proof.
  intros self mouse Zero. rewrite interpret_unfold.
  unfold MouseInterpreter._delta, MouseInterpreter.mbind,
    MouseInterpreter.get, MouseInterpreter.lift.
  cbn [of_int fdiv Binary64.float_PyFloat].
  destruct (binary64_of_Z_cases (mouse - MouseInterpreter.mouse_origin self))
    as [Over|[d Conv]].
  - right. rewrite Over. split; reflexivity.
  - left. rewrite Conv. unfold Binary64.div.
    change (feqb (MouseInterpreter.pixels_in_unit self) (flit 0 1))
      with (PrimFloat.eqb (MouseInterpreter.pixels_in_unit self) 0%float)
      in Zero.
    rewrite Zero. reflexivity.
Qed.

Lemma zero_scale_always_raises_witness :
  @MouseInterpreter.interpret float _ 200
    (MouseInterpreter.Build (flit 0 1) (flit 100 1) 0 (flit 50 1) (flit 0 1))
  = (MouseInterpreter.Build (flit 0 1) (flit 100 1) 0 (flit 50 1) (flit 0 1),
     Raise ZeroDivisionError).
Proof.
  assert (feqb (MouseInterpreter.pixels_in_unit
                  (@MouseInterpreter.Build float (flit 0 1) (flit 100 1) 0
                     (flit 50 1) (flit 0 1))) (flit 0 1) = true) as Zero
    by (vm_compute; reflexivity).
  destruct (zero_scale_always_raises _ 200 Zero) as [E|[_ E]].
  - exact E.
  - vm_compute in E. discriminate E.
Defined.

Section LeavingBound.

Import MouseInterpreter.
Local Open Scope Q_scope.

Lemma clip_exact_le (lo hi v : Q) :
  lo <= hi ->
  py_min (py_max lo v) hi == lo /\ v <= lo \/
  py_min (py_max lo v) hi == v /\ lo <= v <= hi \/
  py_min (py_max lo v) hi == hi /\ hi <= v.
Proof.
  intros B.
  destruct (Qlt_le_dec v lo) as [Below|NotBelow].
  - left. rewrite (clip_exact_below lo hi v B Below). split; lra.
  - destruct (Qlt_le_dec hi v) as [Above|NotAbove].
    + right. right. rewrite (clip_exact_above lo hi v B Above). split; lra.
    + right. left. split; [|lra]. now apply clip_exact_inside.
Qed.

Lemma clip_exact_monotone (lo hi v v' : Q) :
  lo <= hi -> v <= v' ->
  py_min (py_max lo v) hi <= py_min (py_max lo v') hi.
Proof.
  intros B L.
  destruct (clip_exact_le lo hi v B) as [[E ?]|[[E ?]|[E ?]]];
    destruct (clip_exact_le lo hi v' B) as [[E' ?]|[[E' ?]|[E' ?]]];
    rewrite E, E'; lra.
Qed.

Lemma exact_raw_monotone (self : t Q) (m m' : Z) :
  0 < pixels_in_unit self -> (m <= m')%Z ->
  exact_raw self m <= exact_raw self m'.
Proof.
  intros P L.
  pose proof (exact_raw_scaled self m 0 P) as E.
  pose proof (exact_raw_scaled self m' 0 P) as E'.
  assert (inject_Z m <= inject_Z m') as I by (rewrite <- Zle_Qle; exact L).
  destruct (Qlt_le_dec (exact_raw self m') (exact_raw self m)) as [Bad|]; [|assumption].
  exfalso.
  assert (0 < (exact_raw self m - exact_raw self m') * pixels_in_unit self)
    as S by (apply scaled_pos; lra).
  lra.
Qed.

End LeavingBound.





(** ** [SliderValues]: bounds and totality *)

Section ExactRounding.

Local Open Scope Q_scope.

Lemma inject_Z_lt_succ (a b : Z) : inject_Z a < inject_Z b + 1 -> (a <= b)%Z.
Proof.
  intros L. change 1 with (inject_Z 1) in L. rewrite <- inject_Z_plus in L.
  rewrite <- Zlt_Qlt in L. lia.
Qed.

Lemma exact_round_ge (a : Z) (x : Q) :
  inject_Z a - (1 # 2) < x -> (a <= Exact.round x)%Z.
Proof.
  intros L. unfold Exact.round.
  pose proof (Qfloor_le x) as Lo. pose proof (Qlt_floor x) as Hi.
  set (n := Qfloor x) in *.
  rewrite inject_Z_plus in Hi. change (inject_Z 1) with 1 in Hi.
  destruct (Qcompare_spec (x - inject_Z n) (1 # 2)) as [E|Lt|Gt].
  - assert (a <= n)%Z by (apply inject_Z_lt_succ; lra).
    destruct (Z.even n); lia.
  - apply inject_Z_lt_succ. lra.
  - assert (a <= n + 1)%Z; [|lia].
    apply inject_Z_lt_succ. rewrite inject_Z_plus.
    change (inject_Z 1) with 1. lra.
Qed.

Lemma exact_round_le (b : Z) (x : Q) :
  x < inject_Z b + (1 # 2) -> (Exact.round x <= b)%Z.
Proof.
  intros L. unfold Exact.round.
  pose proof (Qfloor_le x) as Lo. pose proof (Qlt_floor x) as Hi.
  set (n := Qfloor x) in *.
  rewrite inject_Z_plus in Hi. change (inject_Z 1) with 1 in Hi.
  destruct (Qcompare_spec (x - inject_Z n) (1 # 2)) as [E|Lt|Gt].
  - assert (n + 1 <= b)%Z.
    { apply inject_Z_lt_succ. rewrite inject_Z_plus.
      change (inject_Z 1) with 1. lra. }
    destruct (Z.even n); lia.
  - apply inject_Z_lt_succ. lra.
  - assert (n + 1 <= b)%Z; [|lia].
    apply inject_Z_lt_succ. rewrite inject_Z_plus.
    change (inject_Z 1) with 1. lra.
Qed.

Lemma exact_bounds_ok (n : Z) : bounds_ok (F := Q) n = true.
Proof.
  unfold bounds_ok. cbn [of_int pyround fsub flit Exact.Q_PyFloat].
  apply Z.eqb_eq. apply Z.le_antisymm.
  - apply exact_round_le. unfold Z.sub. rewrite inject_Z_plus.
    change (inject_Z (- (1))) with (- (1)). lra.
  - apply exact_round_ge. unfold Z.sub. rewrite inject_Z_plus.
    change (inject_Z (- (1))) with (- (1)). lra.
Qed.

End ExactRounding.

Lemma all_bounds_ok_spec (F : Type) (ops : PyFloat F) (n : nat) :
  all_bounds_ok (F := F) n = true ->
  forall k, 1 <= k <= Z.of_nat n -> bounds_ok (F := F) k = true.
Proof.
  unfold all_bounds_ok. rewrite forallb_forall.
  intros All k Rk. specialize (All (Z.to_nat (k - 1))).
  replace (Z.of_nat (S (Z.to_nat (k - 1)))) with k in All by lia.
  apply All, in_seq. lia.
Qed.

Arguments all_bounds_ok_spec {F ops} n _ k _.

Lemma binary64_bounds_ok : all_bounds_ok (F := float) 4096 = true.
Proof. vm_compute. reflexivity. Qed.

Lemma bounds_ok_max (F : Type) (ops : PyFloat F) (A : Type)
    (values : list A) :
  bounds_ok (F := F) (Z.of_nat (List.length values)) = true ->
  exists hi,
    ListSliderValues.max A values = Ok hi /\
    pyround hi = Ok (Z.of_nat (List.length values) - 1).
Proof.
  unfold bounds_ok, ListSliderValues.max.
  destruct (of_int (Z.of_nat (List.length values))) as [x|]; [|discriminate].
  cbn [bind]. destruct (pyround (fsub x (flit 51 100))) as [r|] eqn:R;
    [|discriminate].
  intros E. apply Z.eqb_eq in E. subst r. eauto.
Qed.

(** X15.  The bounds of a list-backed adapter round to the ends of the
    list: [round(min)] is [0], and over a list of [n >= 1] elements
    [round(max)] is [n - 1]; in exact arithmetic for every list, and on
    binary64 for every list of at most 4096 elements. *)
Theorem list_bounds_round_to_the_ends :
  forall (A : Type) (values : list A),
    values <> [] ->
    pyround (ListSliderValues.min : Q) = Ok 0 /\
    pyround (ListSliderValues.min : float) = Ok 0 /\
    (exists hi : Q,
        ListSliderValues.max A values = Ok hi /\
        pyround hi = Ok (Z.of_nat (List.length values) - 1)) /\
    ((List.length values <= 4096)%nat ->
     exists hi : float,
       ListSliderValues.max A values = Ok hi /\
       pyround hi = Ok (Z.of_nat (List.length values) - 1)).
Proof.
  intros A values NE. split; [|split; [|split]].
  - vm_compute. reflexivity.
  - vm_compute. reflexivity.
  - apply bounds_ok_max, exact_bounds_ok.
  - intros Len. apply bounds_ok_max.
    apply (all_bounds_ok_spec 4096 binary64_bounds_ok).
    destruct values; [congruence|]. cbn [List.length] in *. lia.
Qed.

Lemma list_bounds_round_to_the_ends_witness :
  exists hi : float,
    ListSliderValues.max pyobj [PyStr "a"; PyStr "b"; PyStr "c"] = Ok hi /\
    pyround hi = Ok 2.
Proof.
  apply (list_bounds_round_to_the_ends pyobj
           [PyStr "a"; PyStr "b"; PyStr "c"]).
  - discriminate.
  - cbn. lia.
Defined.




(** ** [AngleIterator]: the angles of up to 360 labels *)

Lemma yielded_angles_center (F : Type) (ops : PyFloat F) (QPoint : Type)
    (center : F -> QPoint) (fuel : nat) (amount : Z) :
  yielded_angles QPoint center fuel amount
  = yielded_angles unit (fun _ => tt) fuel amount.
Proof.
  unfold yielded_angles, AngleIterator_iter.
  destruct (of_int 0) as [c0|]; [|reflexivity]. cbn [bind].
  destruct (of_int 360) as [c360|]; [|reflexivity]. cbn [bind].
  destruct (of_int amount) as [a|]; [|reflexivity]. cbn [bind].
  destruct (fdiv c360 a) as [step|]; [|reflexivity]. cbn [bind].
  destruct (_float_range fuel c0 c360 step) as [l|]; [|reflexivity].
  cbn [option_map]. rewrite !map_map. reflexivity.
Qed.

Lemma all_ok_map (A : Type) (l : list (result A)) (angles : list A) :
  all_ok l = Some angles -> l = map Ok angles.
Proof.
  revert angles. induction l as [|[a|e] rest IH]; intros angles; cbn [all_ok].
  - intros [= <-]. reflexivity.
  - destruct (all_ok rest) as [angles'|]; [|discriminate].
    intros [= <-]. cbn [map]. now rewrite (IH angles').
  - discriminate.
Qed.

Lemma strictly_increasing_nth (l : list Z) :
  strictly_increasing l = true ->
  forall i j a b,
    (i < j)%nat -> nth_error l i = Some a -> nth_error l j = Some b -> a < b.
Proof.
  induction l as [|x rest IH]; intros Inc i j a b Lt Ni Nj.
  - destruct i; discriminate.
  - cbn [strictly_increasing] in Inc.
    destruct rest as [|y rest'].
    + destruct j as [|[|j]]; [lia|discriminate|discriminate].
    + apply andb_prop in Inc as [Head Inc]. apply Z.ltb_lt in Head.
      destruct j as [|j]; [lia|]. cbn [nth_error] in Nj.
      destruct i as [|i].
      * injection Ni as <-.
        destruct j as [|j].
        -- cbn in Nj. injection Nj as <-. exact Head.
        -- assert (y < b); [|lia].
           apply (IH Inc 0%nat (S j) y b); [lia|reflexivity|exact Nj].
      * cbn [nth_error] in Ni. apply (IH Inc i j a b); [lia|exact Ni|exact Nj].
Qed.

Lemma binary64_angles_checked :
  forallb binary64_angles_ok (seq 1 360) = true.
Proof. vm_compute. reflexivity. Qed.

(** X18.  On binary64, for every [amount] from 1 to 360 the iterator
    yields [amount] items or one more: the first [amount] angles start at
    0, increase strictly and stay below 360, so that no two labels share
    an angle, and the item in excess, when there is one, has angle 360. *)
Theorem angles_of_up_to_360_labels :
  forall (QPoint : Type) (center : float -> QPoint) (amount : nat),
    (1 <= amount <= 360)%nat ->
    exists angles : list Z,
      yielded_angles QPoint center 400 (Z.of_nat amount)
        = Ok (Some (map Ok angles)) /\
      (List.length angles = amount \/ List.length angles = S amount) /\
      nth_error angles 0 = Some 0 /\
      (forall i j a b,
          (i < j < amount)%nat ->
          nth_error angles i = Some a -> nth_error angles j = Some b ->
          a < b) /\
      (forall i a,
          (i < amount)%nat -> nth_error angles i = Some a -> 0 <= a < 360) /\
      (forall a, nth_error angles amount = Some a -> a = 360).
Proof.
  intros QPoint center amount Range.
  rewrite yielded_angles_center.
  pose proof binary64_angles_checked as All.
  rewrite forallb_forall in All.
  specialize (All amount ltac:(apply in_seq; lia)).
  unfold binary64_angles_ok in All.
  destruct (yielded_angles unit (fun _ => tt) 400 (Z.of_nat amount))
    as [[l|]|]; try discriminate.
  destruct (all_ok l) as [angles|] eqn:Ok_; [|discriminate].
  apply all_ok_map in Ok_. subst l. exists angles.
  split; [reflexivity|].
  unfold angles_checked in All.
  repeat (apply andb_prop in All as [All ?]).
  apply Nat.eqb_eq in All.
  assert (amount <= List.length angles)%nat as Len.
  { rewrite length_firstn in All. lia. }
  assert (forall i, (i < amount)%nat ->
                    nth_error (firstn amount angles) i = nth_error angles i)
    as First.
  { intros i Hi. rewrite nth_error_firstn.
    apply Nat.ltb_lt in Hi. now rewrite Hi. }
  split; [|split; [|split; [|split]]].
  - pose proof (length_skipn amount angles) as Sk.
    destruct (skipn amount angles) as [|a [|b rest]]; cbn [List.length] in Sk;
      [left; lia|right; lia|discriminate].
  - rewrite <- First by lia.
    destruct (firstn amount angles) as [|a rest]; [cbn in All; lia|].
    cbn. f_equal. now apply Z.eqb_eq.
  - intros i j a b Hij Ni Nj.
    apply (strictly_increasing_nth (firstn amount angles)) with i j;
      [assumption|lia|rewrite First by lia; exact Ni
      |rewrite First by lia; exact Nj].
  - intros i a Hi Ni. rewrite <- First in Ni by exact Hi.
    apply nth_error_In in Ni.
    match goal with
    | H : forallb _ (firstn amount angles) = true |- _ =>
        rewrite forallb_forall in H; specialize (H a Ni);
        apply andb_prop in H as [Ge Lt];
        apply Z.leb_le in Ge; apply Z.ltb_lt in Lt; lia
    end.
  - intros a Na.
    assert (nth_error (skipn amount angles) 0 = Some a) as Sk.
    { rewrite nth_error_skipn. now rewrite Nat.add_0_r. }
    destruct (skipn amount angles) as [|a' [|b rest]]; try discriminate.
    cbn in Sk. injection Sk as ->. now apply Z.eqb_eq.
Qed.

Lemma angles_of_up_to_360_labels_witness :
  exists angles : list Z,
    yielded_angles unit (fun _ : float => tt) 400 (Z.of_nat 13)
      = Ok (Some (map Ok angles)) /\
    (List.length angles = 13%nat \/ List.length angles = 14%nat) /\
    nth_error angles 0 = Some 0 /\
    (forall i j a b,
        (i < j < 13)%nat ->
        nth_error angles i = Some a -> nth_error angles j = Some b ->
        a < b) /\
    (forall i a,
        (i < 13)%nat -> nth_error angles i = Some a -> 0 <= a < 360) /\
    (forall a, nth_error angles 13 = Some a -> a = 360).
Proof.
  apply (angles_of_up_to_360_labels unit (fun _ => tt) 13). lia.
Defined.

(** ** [ValueList]: removing and adding rows *)

Section RemoveSelected.

Import ValueList.

Lemma takeItem_head (text : string) (rest : list string) :
  takeItem (text :: rest) 0 = rest.
Proof.
  unfold takeItem. cbn [Z.leb Z.compare andb].
  replace (0 <? Z.of_nat (List.length (text :: rest))) with true
    by (symmetry; apply Z.ltb_lt; cbn [List.length]; lia).
  reflexivity.
Qed.

Lemma takeItem_tail (text : string) (rest : list string) (row : Z) :
  0 < row ->
  takeItem (text :: rest) row = text :: takeItem rest (row - 1).
Proof.
  intros Pos. unfold takeItem.
  replace (0 <=? row) with true by (symmetry; apply Z.leb_le; lia).
  replace (0 <=? row - 1) with true by (symmetry; apply Z.leb_le; lia).
  cbn [andb].
  destruct (row <? Z.of_nat (List.length (text :: rest))) eqn:B.
  - apply Z.ltb_lt in B. cbn [List.length] in B.
    replace (row - 1 <? Z.of_nat (List.length rest)) with true
      by (symmetry; apply Z.ltb_lt; lia).
    replace (Z.to_nat row) with (S (Z.to_nat (row - 1))) by lia.
    reflexivity.
  - apply Z.ltb_ge in B. cbn [List.length] in B.
    replace (row - 1 <? Z.of_nat (List.length rest)) with false
      by (symmetry; apply Z.ltb_ge; lia).
    reflexivity.
Qed.

Lemma keep_rows_none (indices : list Z) (rows : list string) :
  forall k,
    (forall i, In i indices -> i < k) ->
    keep_rows indices k rows = rows.
Proof.
  induction rows as [|text rest IH]; intros k Below; [reflexivity|].
  cbn [keep_rows].
  destruct (existsb (Z.eqb k) indices) eqn:E.
  - apply existsb_exists in E as (i & In_ & Eq). apply Z.eqb_eq in Eq.
    subst i. specialize (Below k In_). lia.
  - rewrite IH; [reflexivity|]. intros i In_. specialize (Below i In_). lia.
Qed.

Lemma keep_rows_take (indices : list Z) (row : Z) (rows : list string) :
  forall k,
    (forall i, In i indices -> i < row) ->
    k <= row ->
    keep_rows indices k (takeItem rows (row - k))
    = keep_rows (row :: indices) k rows.
Proof.
  induction rows as [|text rest IH]; intros k Below Le.
  - unfold takeItem. cbn [List.length Z.of_nat].
    replace (row - k <? 0) with false by (symmetry; apply Z.ltb_ge; lia).
    rewrite andb_false_r. reflexivity.
  - cbn [keep_rows existsb].
    destruct (Z.eq_dec k row) as [->|Ne].
    + rewrite Z.sub_diag, takeItem_head, Z.eqb_refl. cbn [orb].
      rewrite keep_rows_none by (intros i In_; specialize (Below i In_); lia).
      rewrite keep_rows_none; [reflexivity|].
      intros i [<-|In_]; [lia|]. specialize (Below i In_). lia.
    + rewrite takeItem_tail by lia.
      replace (k =? row) with false by (symmetry; apply Z.eqb_neq; exact Ne).
      cbn [orb keep_rows].
      replace (row - k - 1) with (row - (k + 1)) by lia.
      rewrite (IH (k + 1) Below ltac:(lia)).
      destruct (existsb (Z.eqb k) indices); reflexivity.
Qed.


Lemma fold_takeItem_keeps (indices : list Z) :
  StronglySorted above indices ->
  (forall i, In i indices -> 0 <= i) ->
  forall rows,
    fold_left takeItem indices rows = keep_rows indices 0 rows.
Proof.
  induction 1 as [|row rest Sorted_ IH Hd]; intros Pos rows.
  - cbn [fold_left]. symmetry. apply keep_rows_none. intros i [].
  - cbn [fold_left]. rewrite IH by (intros i In_; apply Pos; now right).
    rewrite <- (keep_rows_take rest row rows 0).
    + now rewrite Z.sub_0_r.
    + rewrite Forall_forall in Hd. exact Hd.
    + apply Pos. now left.
Qed.

Lemma insert_desc_In (x z : Z) (l : list Z) :
  In z (insert_desc x l) <-> z = x \/ In z l.
Proof.
  induction l as [|y rest IH]; cbn [insert_desc].
  - cbn. intuition.
  - destruct (y <? x); cbn [In]; [intuition|]. rewrite IH. intuition.
Qed.

Lemma insert_desc_sorted (x : Z) (l : list Z) :
  StronglySorted not_below l -> StronglySorted not_below (insert_desc x l).
Proof.
  induction 1 as [|y rest Sorted_ IH Hd]; cbn [insert_desc].
  - repeat constructor.
  - destruct (y <? x) eqn:E.
    + apply Z.ltb_lt in E. constructor; [now constructor|].
      constructor; [unfold not_below; lia|].
      rewrite Forall_forall in *. intros z In_. specialize (Hd z In_).
      unfold not_below in *. lia.
    + apply Z.ltb_ge in E. constructor; [exact IH|].
      rewrite Forall_forall in *. intros z In_.
      apply insert_desc_In in In_ as [->|In_]; [exact E|now apply Hd].
Qed.

Lemma insert_desc_length (x : Z) (l : list Z) :
  List.length (insert_desc x l) = S (List.length l).
Proof.
  induction l as [|y rest IH]; cbn [insert_desc]; [reflexivity|].
  destruct (y <? x); cbn [List.length]; [reflexivity|now rewrite IH].
Qed.

Lemma insert_desc_NoDup (x : Z) (l : list Z) :
  ~ In x l -> NoDup l -> NoDup (insert_desc x l).
Proof.
  induction l as [|y rest IH]; cbn [insert_desc]; intros Fresh ND.
  - repeat constructor. intros [].
  - destruct (y <? x); [now constructor|].
    inversion ND as [|? ? Ny NDr]; subst. constructor.
    + rewrite insert_desc_In. intros [->|In_]; [apply Fresh; now left|auto].
    + apply IH; [intros In_; apply Fresh; now right|exact NDr].
Qed.

Lemma sorted_reverse_In (z : Z) (l : list Z) :
  In z (sorted_reverse l) <-> In z l.
Proof.
  induction l as [|x rest IH]; [reflexivity|].
  cbn [sorted_reverse fold_right]. fold (sorted_reverse rest).
  rewrite insert_desc_In, IH. cbn [In]. intuition.
Qed.

Lemma sorted_reverse_sorted (l : list Z) :
  StronglySorted not_below (sorted_reverse l).
Proof.
  induction l as [|x rest IH]; [constructor|].
  cbn [sorted_reverse fold_right]. now apply insert_desc_sorted.
Qed.

Lemma sorted_reverse_length (l : list Z) :
  List.length (sorted_reverse l) = List.length l.
Proof.
  induction l as [|x rest IH]; [reflexivity|].
  cbn [sorted_reverse fold_right]. fold (sorted_reverse rest).
  now rewrite insert_desc_length, IH.
Qed.

Lemma sorted_reverse_NoDup (l : list Z) :
  NoDup l -> NoDup (sorted_reverse l).
Proof.
  induction 1 as [|x rest Fresh ND IH]; [constructor|].
  cbn [sorted_reverse fold_right]. fold (sorted_reverse rest).
  apply insert_desc_NoDup; [|exact IH]. now rewrite sorted_reverse_In.
Qed.

Lemma strictly_above (l : list Z) :
  StronglySorted not_below l -> NoDup l -> StronglySorted above l.
Proof.
  induction 1 as [|x rest Sorted_ IH Hd]; intros ND; [constructor|].
  inversion ND as [|? ? Fresh NDr]; subst.
  constructor; [now apply IH|].
  rewrite Forall_forall in *. intros z In_. specialize (Hd z In_).
  unfold above, not_below in *.
  assert (z <> x) by (intros ->; contradiction). lia.
Qed.

Lemma keep_rows_same (indices indices' : list Z) (rows : list string) :
  (forall z, In z indices <-> In z indices') ->
  forall k, keep_rows indices k rows = keep_rows indices' k rows.
Proof.
  intros Same. induction rows as [|text rest IH]; intros k; [reflexivity|].
  cbn [keep_rows].
  assert (existsb (Z.eqb k) indices = existsb (Z.eqb k) indices') as E.
  { apply eq_true_iff_eq. rewrite !existsb_exists.
    split; intros (z & In_ & Eq); exists z; (split; [now apply Same|exact Eq]). }
  now rewrite E, !IH.
Qed.

Lemma takeItem_length (rows : list string) (row : Z) :
  0 <= row < Z.of_nat (List.length rows) ->
  S (List.length (takeItem rows row)) = List.length rows.
Proof.
  intros R. unfold takeItem.
  replace (0 <=? row) with true by (symmetry; apply Z.leb_le; lia).
  replace (row <? Z.of_nat (List.length rows)) with true
    by (symmetry; apply Z.ltb_lt; lia).
  cbn [andb]. rewrite length_app, length_firstn, length_skipn. lia.
Qed.

Lemma fold_takeItem_length (indices : list Z) :
  StronglySorted above indices ->
  forall rows,
    (forall i, In i indices -> 0 <= i < Z.of_nat (List.length rows)) ->
    (List.length (fold_left takeItem indices rows) + List.length indices
     = List.length rows)%nat.
Proof.
  induction 1 as [|row rest Sorted_ IH Hd]; intros rows Valid.
  - cbn. lia.
  - cbn [fold_left List.length].
    pose proof (takeItem_length rows row (Valid row (or_introl eq_refl))) as L.
    rewrite Forall_forall in Hd.
    assert (forall i, In i rest ->
                      0 <= i < Z.of_nat (List.length (takeItem rows row)))
      as Valid'.
    { intros i In_. specialize (Hd i In_). unfold above in Hd.
      pose proof (Valid i (or_intror In_)).
      pose proof (Valid row (or_introl eq_refl)). lia. }
    specialize (IH (takeItem rows row) Valid'). lia.
Qed.

Lemma fold_min_least (rest : list Z) :
  forall index,
    (fold_left Z.min rest index = index \/ In (fold_left Z.min rest index) rest) /\
    fold_left Z.min rest index <= index /\
    (forall i, In i rest -> fold_left Z.min rest index <= i).
Proof.
  induction rest as [|x rest IH]; intros index; cbn [fold_left].
  - split; [now left|]. split; [lia|intros i []].
  - destruct (IH (Z.min index x)) as (Mem & Le & All).
    split; [|split].
    + destruct Mem as [E|In_]; [|right; now right].
      rewrite E. destruct (Z.min_spec index x) as [[_ ->]|[_ ->]];
        [now left|right; now left].
    + lia.
    + intros i [<-|In_]; [lia|now apply All].
Qed.

End RemoveSelected.

(** X19.  [remove_selected], the selected rows being distinct rows of the
    list: the rows left are the rows that were not selected, in their
    order, as many fewer as were selected; and the row handed to
    [setCurrentRow] is the one before the first selected row (none when
    nothing was selected). *)
Theorem remove_selected_removes_the_selected_rows :
  forall self : ValueList.t,
    NoDup (ValueList.selected self) ->
    (forall i, In i (ValueList.selected self) ->
               0 <= i < ValueList.count self) ->
    fst (ValueList.remove_selected self)
      = ValueList.keep_rows (ValueList.selected self) 0 (ValueList.texts self) /\
    (List.length (fst (ValueList.remove_selected self))
     + List.length (ValueList.selected self)
     = List.length (ValueList.texts self))%nat /\
    (ValueList.selected self = [] ->
     snd (ValueList.remove_selected self) = None) /\
    (ValueList.selected self <> [] ->
     exists first,
       snd (ValueList.remove_selected self) = Some (first - 1) /\
       In first (ValueList.selected self) /\
       forall i, In i (ValueList.selected self) -> first <= i).
Proof.
  intros self ND Valid. unfold ValueList.remove_selected. cbn [fst snd].
  assert (StronglySorted above
            (ValueList.sorted_reverse (ValueList.selected self))) as Sorted_.
  { apply strictly_above; [apply sorted_reverse_sorted|].
    now apply sorted_reverse_NoDup. }
  split; [|split; [|split]].
  - rewrite fold_takeItem_keeps.
    + apply keep_rows_same. intros z. apply sorted_reverse_In.
    + exact Sorted_.
    + intros i In_. apply -> sorted_reverse_In in In_. apply Valid in In_. lia.
  - rewrite <- (sorted_reverse_length (ValueList.selected self)).
    apply fold_takeItem_length; [exact Sorted_|].
    intros i In_. apply -> sorted_reverse_In in In_. now apply Valid.
  - intros ->. reflexivity.
  - intros NE. destruct (ValueList.selected self) as [|index rest];
      [congruence|].
    destruct (fold_min_least rest index) as (Mem & Le & All).
    exists (fold_left Z.min rest index). split; [reflexivity|]. split.
    + destruct Mem as [->|In_]; [now left|now right].
    + intros i [<-|In_]; [exact Le|now apply All].
Qed.

Lemma remove_selected_removes_the_selected_rows_witness :
  fst (ValueList.remove_selected
         (ValueList.Build
            ["a"%string; "b"%string; "c"%string; "d"%string] [1; 3] 3))
  = ValueList.keep_rows [1; 3] 0
      ["a"%string; "b"%string; "c"%string; "d"%string].
Proof.
  apply (remove_selected_removes_the_selected_rows
           (ValueList.Build
              ["a"%string; "b"%string; "c"%string; "d"%string] [1; 3] 3)).
  - repeat constructor; cbn; intuition discriminate.
  - cbn. intros i [<-|[<-|[]]]; lia.
Defined.

(** X20.  [PieValues.add]: with no row selected the value goes to the end
    of the list, and the row handed to [setCurrentRow] is one past the row
    it went to; with rows selected it goes right after the current row,
    which is the row handed to [setCurrentRow]. *)
Theorem add_inserts_after_the_current_row :
  forall (self : ValueList.t) (value : string),
    (ValueList.selected self = [] ->
     fst (ValueList.add self value) = ValueList.texts self ++ [value] /\
     snd (ValueList.add self value) = ValueList.count self + 1) /\
    (ValueList.selected self <> [] ->
     -1 <= ValueList.current self < ValueList.count self ->
     fst (ValueList.add self value)
       = firstn (Z.to_nat (ValueList.current self + 1)) (ValueList.texts self)
         ++ value
         :: skipn (Z.to_nat (ValueList.current self + 1)) (ValueList.texts self) /\
     nth_error (fst (ValueList.add self value))
       (Z.to_nat (ValueList.current self + 1)) = Some value /\
     snd (ValueList.add self value) = ValueList.current self + 1).
Proof.
  intros self value. unfold ValueList.add, ValueList.insert,
    ValueList.current_row, ValueList.insertItem, ValueList.count.
  split.
  - intros ->. cbn [fst snd]. split; [|reflexivity].
    replace (Z.to_nat _) with (List.length (ValueList.texts self)) by lia.
    now rewrite firstn_all, skipn_all.
  - intros NE R. destruct (ValueList.selected self); [congruence|].
    cbn [fst snd].
    replace (Z.to_nat (Z.max 0 _))
      with (Z.to_nat (ValueList.current self + 1)) by lia.
    split; [reflexivity|]. split; [|reflexivity].
    rewrite nth_error_app2 by (rewrite length_firstn; lia).
    rewrite length_firstn.
    replace (_ - _)%nat with 0%nat by lia. reflexivity.
Qed.

Lemma add_inserts_after_the_current_row_witness :
  fst (ValueList.add
         (ValueList.Build ["a"%string; "b"%string] [] (-1)) "c")
    = ["a"%string; "b"%string] ++ ["c"%string] /\
  fst (ValueList.add
         (ValueList.Build ["a"%string; "b"%string] [0] 0) "c")
    = ["a"%string; "c"%string; "b"%string].
Proof.
  split.
  - apply (add_inserts_after_the_current_row
             (ValueList.Build ["a"%string; "b"%string] [] (-1)) "c").
    reflexivity.
  - apply (add_inserts_after_the_current_row
             (ValueList.Build ["a"%string; "b"%string] [0] 0) "c").
    + discriminate.
    + cbn. lia.
Defined.
